(** * Notes simplifier: text extraction, clean-up and block classification

    The development embeds two pieces of the repository:

    - the Express backend: [safePdfParse], [extractTextFromPDF],
      [extractTextFromWord], [extractTextFromFile] and the clean-up chain of
      [simplifyNotes];
    - the React front end: the clean-up chain and the per-line rendering of
      [FormattedNotesDisplay].

    JavaScript strings are sequences of UTF-16 code units, regular
    expressions without the [u] flag work on code units, and [async]
    functions are read as computations that either return or throw. *)

From Stdlib Require Import NArith List Ascii String Lia Bool.
From stdpp Require Import gmap strings list.

Local Open Scope N_scope.

(** ** JavaScript strings *)

Module Js.

(** A string is its list of UTF-16 code units. *)
Definition JsString := list N.

(** An ASCII literal of the source as code units. *)
Fixpoint lit (s : string) : JsString :=
  match s with
  | EmptyString => []
  | String a s' => N_of_ascii a :: lit s'
  end.

(** [LineTerminator] of ECMAScript: the code units [.] does not match. *)
Definition isLineTerminator (c : N) : bool :=
  (c =? 0x0A) || (c =? 0x0D) || (c =? 0x2028) || (c =? 0x2029).

(** [WhiteSpace] and [LineTerminator] of ECMAScript: what [\s] matches and
    what [String.prototype.trim] strips. *)
Definition isSpace (c : N) : bool :=
  (c =? 0x09) || (c =? 0x0A) || (c =? 0x0B) || (c =? 0x0C) || (c =? 0x0D)
  || (c =? 0x20) || (c =? 0xA0) || (c =? 0x1680)
  || ((0x2000 <=? c) && (c <=? 0x200A))
  || (c =? 0x2028) || (c =? 0x2029) || (c =? 0x202F) || (c =? 0x205F)
  || (c =? 0x3000) || (c =? 0xFEFF).

Fixpoint dropWhile (p : N -> bool) (s : JsString) : JsString :=
  match s with
  | [] => []
  | c :: s' => if p c then dropWhile p s' else s
  end.

(** [s.trimStart()], [s.trimEnd()] and [s.trim()]. *)
Definition trimStart (s : JsString) : JsString := dropWhile isSpace s.
Definition trimEnd (s : JsString) : JsString := rev (dropWhile isSpace (rev s)).
Definition trim (s : JsString) : JsString := trimEnd (trimStart s).

(** [s.split('\n')]: the pieces between line feeds; never empty. *)
Fixpoint split_lf (s : JsString) : list JsString :=
  match s with
  | [] => [[]]
  | c :: s' =>
      if c =? 0x0A then [] :: split_lf s'
      else match split_lf s' with
           | [] => [[c]]
           | l :: ls => (c :: l) :: ls
           end
  end.

(** [pieces.join('\n')]. *)
Fixpoint join_lf (ls : list JsString) : JsString :=
  match ls with
  | [] => []
  | [l] => l
  | l :: ls' => l ++ 0x0A :: join_lf ls'
  end.

(** [s.startsWith(p)], returning what follows the prefix. *)
Fixpoint stripPrefix (p s : JsString) : option JsString :=
  match p, s with
  | [], _ => Some s
  | _ :: _, [] => None
  | a :: p', c :: s' => if a =? c then stripPrefix p' s' else None
  end.

End Js.
Export Js.

(** ** Regular expressions of the clean-up chains *)

Module Regex.

(** A pattern tried at the start of its input: on a match, the text that
    replaces the match and the input left after it. *)
Definition Matcher := JsString -> option (JsString * JsString).

(** The lazy group [(.*?)] followed by the rest [k] of the pattern: the
    shortest run of non-terminator code units after which [k] matches. *)
Fixpoint lazyDot {A} (k : JsString -> option A) (s : JsString)
  : option (JsString * A) :=
  match k s with
  | Some a => Some ([], a)
  | None =>
      match s with
      | [] => None
      | c :: s' =>
          if isLineTerminator c then None
          else match lazyDot k s' with
               | Some (cap, a) => Some (c :: cap, a)
               | None => None
               end
      end
  end.

(** [/d(.*?)d/] replaced by [$1], for a literal delimiter [d]. *)
Definition matchWrapped (d : JsString) : Matcher := fun s =>
  match stripPrefix d s with
  | Some s1 => lazyDot (stripPrefix d) s1
  | None => None
  end.

Definition hash : N := 0x23.

(** [/#{k}\s*/] replaced by the empty string. *)
Definition matchHeading (k : nat) : Matcher := fun s =>
  match stripPrefix (repeat hash k) s with
  | Some s1 => Some ([], dropWhile isSpace s1)
  | None => None
  end.

(** [/\[(.*?)\]\(.*?\)/] replaced by [$1]. *)
Definition matchLink : Matcher := fun s =>
  match stripPrefix (lit "[") s with
  | Some s1 =>
      lazyDot (fun t =>
                 match stripPrefix (lit "](") t with
                 | Some t1 =>
                     match lazyDot (stripPrefix (lit ")")) t1 with
                     | Some (_, rest) => Some rest
                     | None => None
                     end
                 | None => None
                 end) s1
  | None => None
  end.

(** [s.replace(/.../g, ...)]: the pattern is tried at the current position;
    a match emits its replacement and resumes after the match, a failure
    emits one code unit and resumes at the next position.  No pattern of
    the chains matches the empty string, so every step shortens the input
    and [length s] steps are enough ([gsub_unfold] below). *)
Fixpoint gsubFrom (m : Matcher) (fuel : nat) (s : JsString) : JsString :=
  match fuel with
  | O => s
  | S fuel' =>
      match m s with
      | Some (repl, rest) => repl ++ gsubFrom m fuel' rest
      | None =>
          match s with
          | [] => []
          | c :: s' => c :: gsubFrom m fuel' s'
          end
      end
  end.

Definition gsub (m : Matcher) (s : JsString) : JsString :=
  gsubFrom m (length s) s.

(** [re.test(s)] for an unanchored pattern: a match at some position. *)
Fixpoint hasMatch (m : Matcher) (s : JsString) : bool :=
  match m s with
  | Some _ => true
  | None =>
      match s with
      | [] => false
      | _ :: s' => hasMatch m s'
      end
  end.

End Regex.
Export Regex.

(** ** The two clean-up chains *)

Definition tripleStar : Matcher := matchWrapped (lit "***").
Definition doubleStar : Matcher := matchWrapped (lit "**").
Definition singleStar : Matcher := matchWrapped (lit "*").
Definition doubleUnderscore : Matcher := matchWrapped (lit "__").
Definition singleUnderscore : Matcher := matchWrapped (lit "_").
Definition backtick : Matcher := matchWrapped (lit "`").
Definition heading3 : Matcher := matchHeading 3.
Definition heading2 : Matcher := matchHeading 2.
Definition heading1 : Matcher := matchHeading 1.

Definition applyRules (rules : list Matcher) (s : JsString) : JsString :=
  fold_left (fun acc m => gsub m acc) rules s.

(** The [.replace] calls of [FormattedNotesDisplay], in source order. *)
Definition displayRules : list Matcher :=
  [ tripleStar; doubleStar; singleStar; doubleUnderscore; singleUnderscore;
    backtick; heading3; heading2; heading1 ].

(** The [.replace] calls of [simplifyNotes], in source order. *)
Definition responseRules : list Matcher :=
  [ tripleStar; doubleStar; singleStar; doubleUnderscore; singleUnderscore;
    heading3; heading2; heading1; backtick; matchLink ].

(** [cleanContent] of [FormattedNotesDisplay]. *)
Definition cleanContent (content : JsString) : JsString :=
  applyRules displayRules content.

(** The clean-up of [response] in [simplifyNotes]. *)
Definition cleanResponse (response : JsString) : JsString :=
  applyRules responseRules response.

(** ** Block classification ([FormattedNotesDisplay]) *)

(** The UTF-16 encoding of a code point, as the source text of a pattern or
    of a string literal holds it. *)
Definition encodeCodePoint (cp : N) : JsString :=
  if cp <? 0x10000 then [cp]
  else [0xD800 + N.shiftr (cp - 0x10000) 10; 0xDC00 + N.land (cp - 0x10000) 0x3FF].

(** The five glyphs written in the character class of the header test:
    direct hit, light bulb, star, memo, magnifying glass. *)
Definition headerGlyphs : list N := [0x1F3AF; 0x1F4A1; 0x2B50; 0x1F4DD; 0x1F50D].

(** The class of the pattern [/^[...]/]: the pattern has no [u] flag, so the
    class holds the code units of its source text. *)
Definition headerClass : list N := flat_map encodeCodePoint headerGlyphs.

(** [trimmedLine.match(/^[...]/)], as a truth value. *)
Definition matchesHeader (s : JsString) : bool :=
  match s with
  | [] => false
  | c :: _ => existsb (N.eqb c) headerClass
  end.

Definition bulletGlyph : N := 0x2022.

(** [s.startsWith(p)]. *)
Definition startsWith (s p : JsString) : bool :=
  match stripPrefix p s with Some _ => true | None => false end.

(** [s.substring(1)]. *)
Definition substring1 (s : JsString) : JsString := tl s.

(** What a line is rendered as: the [div] classes [line-break],
    [note-header], [note-bullet] (whose glyph sits in its own [span], the
    content in another) and [note-paragraph]. *)
Inductive RenderBlock : Type :=
  | Spacer
  | Header (content : JsString)
  | Bullet (content : JsString)
  | Paragraph (content : JsString).

Definition content (b : RenderBlock) : JsString :=
  match b with
  | Spacer => []
  | Header c | Bullet c | Paragraph c => c
  end.

(** The body of [lines.map((line, index) => ...)]. *)
Definition classifyLine (line : JsString) : RenderBlock :=
  let trimmedLine := trim line in
  match trimmedLine with
  | [] => Spacer
  | _ :: _ =>
      if matchesHeader trimmedLine then Header trimmedLine
      else if startsWith trimmedLine [bulletGlyph]
           then Bullet (trim (substring1 trimmedLine))
           else Paragraph trimmedLine
  end.

(** [lines.map(...)] over the lines of the cleaned text. *)
Definition classify (cleanText : JsString) : list RenderBlock :=
  map classifyLine (split_lf cleanText).

Definition FormattedNotesDisplay (text : JsString) : list RenderBlock :=
  classify (cleanContent text).

(** ** Text extraction (backend) *)

(** A thrown value is an object; [new Error(msg)] has the single own data
    property [message] the code reads. *)
Abbreviation JsObject := (gmap string JsString).

Definition newError (msg : JsString) : JsObject := {[ "message"%string := msg ]}.

(** [error.message] inside a string concatenation: a missing property
    reads [undefined]. *)
Definition messageOf (error : JsObject) : JsString :=
  match error !! "message"%string with
  | Some m => m
  | None => lit "undefined"
  end.

(** The outcome of an awaited call. *)
Inductive Completion (A : Type) : Type :=
  | Return (a : A)
  | Throw (e : JsObject).
Arguments Return {A} a.
Arguments Throw {A} e.

Definition bind {A B} (c : Completion A) (k : A -> Completion B) : Completion B :=
  match c with
  | Return a => k a
  | Throw e => Throw e
  end.

Definition tryCatch {A} (body : Completion A) (handler : JsObject -> Completion A)
  : Completion A :=
  match body with
  | Return a => Return a
  | Throw e => handler e
  end.

Notation "'let*' x ':=' c 'in' k" := (bind c (fun x => k))
  (at level 10, x name, c at level 100, k at level 200).

(** [a || b] on strings: the empty string is falsy. *)
Definition orElse (a b : JsString) : JsString :=
  match a with
  | [] => b
  | _ :: _ => a
  end.

(** [a === b] on strings. *)
Definition strictEq (a b : JsString) : bool := bool_decide (a = b).

(** The value [pdf-parse] resolves to and the value [mammoth] resolves to. *)
Record PdfData : Type := { numpages : N; text : JsString }.
Record MammothResult : Type := { value : JsString }.

Definition pdfFailed : JsString :=
  lit "PDF text extraction failed. The PDF might be image-based or corrupted. Please try copying the text manually.".
Definition pdfEmpty : JsString := lit "No readable text found in PDF".
Definition wordEmpty : JsString := lit "No text found in Word document".
Definition wordFailed : JsString := lit "Failed to extract text from Word document: ".
Definition fileFailed : JsString := lit "Failed to extract text from file: ".

Definition mimeText : JsString := lit "text/plain".
Definition mimePdf : JsString := lit "application/pdf".
Definition mimeDocx : JsString :=
  lit "application/vnd.openxmlformats-officedocument.wordprocessingml.document".
Definition mimeDoc : JsString := lit "application/msword".

(** The template literal of the last [throw] of [extractTextFromFile]. *)
Definition unsupportedMessage (mimetype : option JsString) (ext : JsString) : JsString :=
  lit "Unsupported file type: "
  ++ orElse (default [] mimetype) (lit "unknown")
  ++ lit " (" ++ orElse ext (lit "no extension")
  ++ lit "). Supported formats: PDF, Word (.docx, .doc), Text (.txt, .md, .csv)".

Section Extractor.

(** The library calls the extractor delegates to. *)
Variable Buffer : Type.
(** [buffer.toString('utf-8')]. *)
Variable toStringUtf8 : Buffer -> Completion JsString.
(** [path.extname] and [String.prototype.toLowerCase]. *)
Variable extname : JsString -> JsString.
Variable toLowerCase : JsString -> JsString.
(** [(await import('pdf-parse')).default(buffer)]. *)
Variable pdfParse : Buffer -> Completion PdfData.
(** [mammoth.extractRawText({ buffer })]. *)
Variable extractRawText : Buffer -> Completion MammothResult.

Definition safePdfParse (buffer : Buffer) : Completion PdfData :=
  tryCatch (pdfParse buffer)
    (fun error => Throw (newError (lit "PDF parsing failed: " ++ messageOf error))).

Definition extractTextFromPDF (buffer : Buffer) : Completion JsString :=
  tryCatch
    (let* data := safePdfParse buffer in
     Return (orElse (trim (text data)) pdfEmpty))
    (fun error => Return pdfFailed).

Definition extractTextFromWord (buffer : Buffer) : Completion JsString :=
  tryCatch
    (let* result := extractRawText buffer in
     Return (orElse (trim (value result)) wordEmpty))
    (fun error => Throw (newError (wordFailed ++ messageOf error))).

(** [switch (mimetype)] compares with [===]; an absent type equals no case. *)
Definition mimeIs (mimetype : option JsString) (known : JsString) : bool :=
  match mimetype with
  | Some m => strictEq m known
  | None => false
  end.

(** The innermost [try] of the [default] branch: [Some text] when it
    returns from the function, [None] when control reaches the [throw]. *)
Definition sniffText (buffer : Buffer) : option JsString :=
  match toStringUtf8 buffer with
  | Return text =>
      if (0 <? N.of_nat (length text)) && (N.of_nat (length text) <? 1000000)
      then Some text else None
  | Throw _ => None
  end.

Definition extractTextFromFile
    (buffer : Buffer) (mimetype : option JsString) (filename : JsString)
  : Completion JsString :=
  tryCatch
    (if mimeIs mimetype mimeText then toStringUtf8 buffer
     else if mimeIs mimetype mimePdf then extractTextFromPDF buffer
     else if mimeIs mimetype mimeDocx || mimeIs mimetype mimeDoc
          then extractTextFromWord buffer
     else
       let ext := toLowerCase (extname filename) in
       if strictEq ext (lit ".txt") || strictEq ext (lit ".md")
          || strictEq ext (lit ".csv")
       then toStringUtf8 buffer
       else if strictEq ext (lit ".pdf") then extractTextFromPDF buffer
       else if strictEq ext (lit ".docx") || strictEq ext (lit ".doc")
            then extractTextFromWord buffer
       else
         match sniffText buffer with
         | Some text => Return text
         | None => Throw (newError (unsupportedMessage mimetype ext))
         end)
    (fun error => Throw (newError (fileFailed ++ messageOf error))).

End Extractor.

(** The outer [catch] of [extractTextFromFile] applied to a leaf result. *)
Definition surfaced (c : Completion JsString) : Completion JsString :=
  tryCatch c (fun error => Throw (newError (fileFailed ++ messageOf error))).

Definition knownMimes : list JsString := [mimeText; mimePdf; mimeDocx; mimeDoc].
Definition textExts : list JsString := [lit ".txt"; lit ".md"; lit ".csv"].
Definition wordExts : list JsString := [lit ".docx"; lit ".doc"].
Definition recognizedExts : list JsString := textExts ++ [lit ".pdf"] ++ wordExts.

(** The length test of the sniffing branch. *)
Definition plausibleText (t : JsString) : Prop :=
  0 < N.of_nat (length t) /\ N.of_nat (length t) < 1000000.



(** ** Deterministic stand-ins for the delegated libraries

    The dispatcher is exercised on concrete inputs with stand-ins for the
    file-system and document libraries: buffers hold ASCII text, so that
    decoding is the identity on code units. *)

Module Standin.

Definition Buffer : Type := JsString.

Definition toStringUtf8 (buffer : Buffer) : Completion JsString := Return buffer.

(** The extension of a plain file name, from its last dot on: what
    [path.extname] gives for a name with no directory part whose last dot
    is not its first character. *)
Fixpoint lastDot (s : JsString) : option JsString :=
  match s with
  | [] => None
  | c :: s' =>
      match lastDot s' with
      | Some e => Some e
      | None => if c =? 0x2E then Some s else None
      end
  end.
Definition extname (filename : JsString) : JsString := default [] (lastDot filename).

(** Lower-casing of ASCII letters. *)
Definition toLowerCase (s : JsString) : JsString :=
  map (fun c => if (0x41 <=? c) && (c <=? 0x5A) then c + 0x20 else c) s.

Definition pdfReads (buffer : Buffer) : Completion PdfData :=
  Return {| numpages := 1; text := buffer |}.
Definition pdfCorrupt (buffer : Buffer) : Completion PdfData :=
  Throw (newError (lit "Invalid PDF structure")).

Definition wordReads (buffer : Buffer) : Completion MammothResult :=
  Return {| value := buffer |}.
Definition wordCorrupt (buffer : Buffer) : Completion MammothResult :=
  Throw (newError (lit "Can't find end of central directory")).

(** The dispatcher over a corrupt PDF reader and a corrupt Word reader. *)
Definition extract : Buffer -> option JsString -> JsString -> Completion JsString :=
  extractTextFromFile Buffer toStringUtf8 extname toLowerCase pdfCorrupt wordCorrupt.

End Standin.

(** The claimed payload shape: a field [errorKind] holding one of two kinds. *)
Definition structuredPayload (e : JsObject) : Prop :=
  exists kind : JsString,
    e !! "errorKind"%string = Some kind
    /\ (kind = lit "UnsupportedFormat" \/ kind = lit "ExtractionFailure").


(** ** Predicates of the statements *)

(** The first code unit is white space. *)
Definition headSpace (s : JsString) : bool :=
  match s with
  | [] => false
  | c :: _ => isSpace c
  end.

(** White space at either end of a string. *)
Definition padded (s : JsString) : bool := headSpace s || headSpace (rev s).

(** The glyph a block shows apart from its content: the [bullet-icon] span. *)
Definition marker (b : RenderBlock) : JsString :=
  match b with
  | Bullet _ => [bulletGlyph]
  | _ => []
  end.

(** The text read back from the blocks, one line per block. *)
Definition blockText (blocks : list RenderBlock) : JsString :=
  join_lf (map content blocks).

(** The text with every line trimmed. *)
Definition trimLines (s : JsString) : JsString :=
  join_lf (map trim (split_lf s)).

(** A line that opens with one of the five header glyphs. *)
Definition opensWithHeaderGlyph (s : JsString) : bool :=
  existsb (fun g => startsWith s (encodeCodePoint g)) headerGlyphs.

(** No line terminator: the string is a single line. *)
Definition oneLine (s : JsString) : bool :=
  forallb (fun c => negb (isLineTerminator c)) s.

(** At most one [c] on every line of [s]; [seen] tells whether the current
    line already holds one. *)
Fixpoint atMostOnePerLine (c : N) (seen : bool) (s : JsString) : bool :=
  match s with
  | [] => true
  | x :: s' =>
      if isLineTerminator x then atMostOnePerLine c false s'
      else if x =? c then (if seen then false else atMostOnePerLine c true s')
      else atMostOnePerLine c seen s'
  end.

Definition star : N := 0x2A.
Definition underscore : N := 0x5F.
Definition tick : N := 0x60.
Definition openBracket : N := 0x5B.

(** None of the nine marker patterns matches anywhere in [s]. *)
Definition noMarkers (s : JsString) : bool :=
  forallb (fun m => negb (hasMatch m s)) displayRules.

(** [a] is [b] with some code units deleted, none of them a line
    terminator: the lines of [b] are kept apart. *)
Inductive lineSub : JsString -> JsString -> Prop :=
  | lineSub_nil : lineSub [] []
  | lineSub_keep (x : N) (a b : JsString) :
      lineSub a b -> lineSub (x :: a) (x :: b)
  | lineSub_drop (x : N) (a b : JsString) :
      isLineTerminator x = false -> lineSub a b -> lineSub a (x :: b).

(** A pattern whose every match is at least one code unit long. *)
Definition consuming (m : Matcher) : Prop :=
  forall s r rest, m s = Some (r, rest) -> (length rest < length s)%nat.

(** Inputs on which no heading rule can join two lines: a single line, or
    no [#] at all. *)
Definition safe (s : JsString) : Prop := oneLine s = true \/ ~ In hash s.

(** A rule that, on safe input, only deletes code units inside lines. *)
Definition deleting (m : Matcher) : Prop :=
  forall s, safe s -> lineSub (gsub m s) s.

(** What the chains reach on safe input. *)
Definition clean (s : JsString) : Prop :=
  atMostOnePerLine star false s = true
  /\ atMostOnePerLine underscore false s = true
  /\ atMostOnePerLine tick false s = true
  /\ ~ In hash s.

(** ** Further predicates on cleaned text *)

(** The code units some rule of the chains looks for. *)
Definition markerChars : list N := [star; underscore; tick; hash; openBracket].

(** A string of white space only: [!s.trim()]. *)
Definition blank (s : JsString) : bool :=
  match trim s with
  | [] => true
  | _ :: _ => false
  end.

(** ** The summarising service ([simplifyNotes]) *)

(** [s.includes(needle)]. *)
Fixpoint includes (s needle : JsString) : bool :=
  match stripPrefix needle s with
  | Some _ => true
  | None =>
      match s with
      | [] => false
      | _ :: s' => includes s' needle
      end
  end.

(** The lines of the template literal [prompt] before [${processText}]. *)
Definition promptLines : list JsString :=
  [ [];
    lit "Please analyze the following study notes and create a simplified, well-organized summary. Use this exact format with NO markdown symbols (no **, __, ###, etc.):";
    [];
    encodeCodePoint 0x1F3AF ++ lit " MAIN TOPICS";
    [bulletGlyph] ++ lit " [List each main topic clearly]";
    [];
    encodeCodePoint 0x1F4A1 ++ lit " KEY CONCEPTS  ";
    [bulletGlyph] ++ lit " [Define important concepts simply]";
    [];
    encodeCodePoint 0x2B50 ++ lit " IMPORTANT POINTS";
    [bulletGlyph] ++ lit " [Highlight crucial information]";
    [];
    encodeCodePoint 0x1F4DD ++ lit " SUMMARY";
    lit "[Write a clear paragraph explaining the main ideas]";
    [];
    encodeCodePoint 0x1F50D ++ lit " STUDY TIPS";
    [bulletGlyph] ++ lit " [Provide practical study advice]";
    [];
    lit "Rules:";
    lit "- Use ONLY plain text with emojis and bullet points (" ++ [bulletGlyph] ++ lit ")";
    lit "- NO formatting symbols like ** __ ### etc.";
    lit "- Keep explanations clear and concise";
    lit "- Make it easy to read and understand";
    [];
    lit "Notes to analyze:";
    [] ].

(** The template literal [prompt]: the notes follow the last line of the
    template and are followed by a line feed and two spaces. *)
Definition buildPrompt (processText : JsString) : JsString :=
  join_lf promptLines ++ processText ++ 0x0A :: lit "  ".

(** A computation that may call the generative model: the prompts it sent,
    in order, and its result. *)
Definition Traced (A : Type) : Type := (list JsString * A)%type.

Definition maxLength : N := 100000.

Definition noTextProvided : JsString := lit "No text provided for processing".
Definition emptyResponse : JsString := lit "AI returned empty response".
Definition invalidApiKey : JsString :=
  lit "Invalid API key. Please check your Gemini API key configuration.".
Definition quotaExceeded : JsString :=
  lit "API quota exceeded. Please try again later or check your Gemini API limits.".
Definition timedOut : JsString :=
  lit "AI processing timed out. Please try with shorter content.".
Definition aiFailed : JsString := lit "AI processing failed: ".

(** The body of an HTTP reply: [{ error }], or
    [{ success: true, simplifiedNotes, originalLength, simplifiedLength }].
    A field whose value is [undefined] is left out of the JSON text. *)
Inductive Json : Type :=
  | ErrorJson (error : option JsString)
  | NotesJson (simplifiedNotes : JsString) (originalLength simplifiedLength : N).

(** [res.status(code).json(body)]; [res.json(body)] has status 200. *)
Record HttpResponse : Type := { status : N; json : Json }.

Definition badRequest (error : string) : HttpResponse :=
  {| status := 400; json := ErrorJson (Some (lit error)) |}.

(** [res.status(500).json({ error: error.message })]. *)
Definition serverError (error : JsObject) : HttpResponse :=
  {| status := 500; json := ErrorJson (error !! "message"%string) |}.

(** [req.file], as [multer] fills it in. *)
Module Multer.
Record File (Buffer : Type) : Type :=
  { buffer : Buffer; size : N; mimetype : option JsString; originalname : JsString }.
Arguments buffer {Buffer} f.
Arguments size {Buffer} f.
Arguments mimetype {Buffer} f.
Arguments originalname {Buffer} f.
End Multer.

Section Service.

(** [(await model.generateContent(prompt)).response.text()]. *)
Variable generateContent : JsString -> Completion JsString.
(** The [TypeError] the engine throws for [undefined.includes]. *)
Variable typeError : JsObject.

(** [text.length > maxLength ? text.substring(0, maxLength) + '...' : text]. *)
Definition processText (text : JsString) : JsString :=
  if maxLength <? N.of_nat (length text)
  then take (N.to_nat maxLength) text ++ lit "..."
  else text.

(** The [catch] block of [simplifyNotes]. *)
Definition aiFailure (error : JsObject) : Completion JsString :=
  match error !! "message"%string with
  | None => Throw typeError
  | Some message =>
      if includes message (lit "API_KEY") then Throw (newError invalidApiKey)
      else if includes message (lit "quota") then Throw (newError quotaExceeded)
      else if includes message (lit "timeout") then Throw (newError timedOut)
      else Throw (newError (aiFailed ++ message))
  end.

(** [simplifyNotes]; [!text || text.trim().length === 0] is [blank text],
    the empty string being the only falsy string. *)
Definition simplifyNotes (text : JsString) : Traced (Completion JsString) :=
  if blank text then ([], Throw (newError noTextProvided))
  else
    let prompt := buildPrompt (processText text) in
    ([prompt],
     tryCatch
       (let* response := generateContent prompt in
        if blank response then Throw (newError emptyResponse)
        else Return (cleanResponse response))
       aiFailure).

(** The reply to a request after [simplifyNotes] was awaited: the [res.json]
    of the [try] block, or the [catch] block of the route. *)
Definition replyWith (originalLength : N) (outcome : Traced (Completion JsString))
  : Traced HttpResponse :=
  match outcome with
  | (calls, Return simplifiedNotes) =>
      (calls, {| status := 200;
                 json := NotesJson simplifiedNotes originalLength
                           (N.of_nat (length simplifiedNotes)) |})
  | (calls, Throw error) => (calls, serverError error)
  end.

(** The handler of [POST /api/process-text]; [text] is [None] when
    [req.body.text] is absent or is not a string. *)
Definition processTextRoute (text : option JsString) : Traced HttpResponse :=
  match text with
  | None => ([], badRequest "No text provided")
  | Some text =>
      match text with
      | [] => ([], badRequest "No text provided")
      | _ :: _ =>
          if blank text then ([], badRequest "Text cannot be empty")
          else if 200000 <? N.of_nat (length text)
          then ([], badRequest "Text is too long. Please limit to 200,000 characters.")
          else replyWith (N.of_nat (length text)) (simplifyNotes text)
      end
  end.

Variable Buffer : Type.
Variable toStringUtf8 : Buffer -> Completion JsString.
Variable extname : JsString -> JsString.
Variable toLowerCase : JsString -> JsString.
Variable pdfParse : Buffer -> Completion PdfData.
Variable extractRawText : Buffer -> Completion MammothResult.

(** The handler of [POST /api/upload]. *)
Definition uploadRoute (file : option (Multer.File Buffer)) : Traced HttpResponse :=
  match file with
  | None => ([], badRequest "No file uploaded")
  | Some file =>
      if Multer.size file =? 0 then ([], badRequest "Uploaded file is empty")
      else
        match extractTextFromFile Buffer toStringUtf8 extname toLowerCase pdfParse
                extractRawText (Multer.buffer file) (Multer.mimetype file)
                (Multer.originalname file) with
        | Throw error => ([], serverError error)
        | Return extractedText =>
            if blank extractedText
            then ([], badRequest "No readable text found in the uploaded file")
            else replyWith (N.of_nat (length extractedText))
                   (simplifyNotes extractedText)
        end
  end.

End Service.

(** The requests [POST /api/process-text] turns down: no string, a blank
    one, or more than 200,000 code units. *)
Definition rejectedText (text : option JsString) : Prop :=
  match text with
  | None => True
  | Some t => blank t = true \/ 200000 < N.of_nat (length t)
  end.

Definition noReadableText : HttpResponse :=
  badRequest "No readable text found in the uploaded file".

(** Stand-ins for the generative model. *)
Module StandinModel.

Definition replies (response : JsString) (prompt : JsString) : Completion JsString :=
  Return response.

Definition fails (message : JsString) (prompt : JsString) : Completion JsString :=
  Throw (newError message).

Definition typeError : JsObject :=
  newError (lit "Cannot read properties of undefined (reading 'includes')").

End StandinModel.

(** ** The front end ([App]) *)

(** A [File] object of the browser. *)
Module Browser.
Record File : Type := { name : JsString; type : JsString; size : N }.
End Browser.

(** The two values [inputMode] takes: ['file'] and ['text']. *)
Inductive InputMode : Type := FileMode | TextMode.

(** The state of [App], one field per [useState]. *)
Module App.
Record State : Type :=
  { file : option Browser.File;
    textInput : JsString;
    loading : bool;
    results : option Json;
    error : JsString;
    dragOver : bool;
    inputMode : InputMode }.
End App.

Definition setFile (v : option Browser.File) (st : App.State) : App.State :=
  {| App.file := v; App.textInput := App.textInput st; App.loading := App.loading st;
     App.results := App.results st; App.error := App.error st;
     App.dragOver := App.dragOver st; App.inputMode := App.inputMode st |}.

Definition setLoading (v : bool) (st : App.State) : App.State :=
  {| App.file := App.file st; App.textInput := App.textInput st; App.loading := v;
     App.results := App.results st; App.error := App.error st;
     App.dragOver := App.dragOver st; App.inputMode := App.inputMode st |}.

Definition setResults (v : option Json) (st : App.State) : App.State :=
  {| App.file := App.file st; App.textInput := App.textInput st;
     App.loading := App.loading st; App.results := v; App.error := App.error st;
     App.dragOver := App.dragOver st; App.inputMode := App.inputMode st |}.

Definition setError (v : JsString) (st : App.State) : App.State :=
  {| App.file := App.file st; App.textInput := App.textInput st;
     App.loading := App.loading st; App.results := App.results st; App.error := v;
     App.dragOver := App.dragOver st; App.inputMode := App.inputMode st |}.

Definition setDragOver (v : bool) (st : App.State) : App.State :=
  {| App.file := App.file st; App.textInput := App.textInput st;
     App.loading := App.loading st; App.results := App.results st;
     App.error := App.error st; App.dragOver := v;
     App.inputMode := App.inputMode st |}.

Definition supportedTypes : list JsString :=
  [ lit "text/plain"; lit "application/pdf";
    lit "application/vnd.openxmlformats-officedocument.wordprocessingml.document";
    lit "application/msword"; lit "text/markdown"; lit "text/csv" ].

Definition supportedExtensions : list JsString :=
  [ lit ".txt"; lit ".pdf"; lit ".docx"; lit ".doc"; lit ".md"; lit ".csv" ].

(** [arr.includes(x)] on an array of strings. *)
Definition arrayIncludes (arr : list JsString) (x : JsString) : bool :=
  existsb (strictEq x) arr.

(** [s.lastIndexOf(c)] for a one-character [c]: [-1] when [c] is absent. *)
Fixpoint lastIndexFrom (i : Z) (found : Z) (c : N) (s : JsString) : Z :=
  match s with
  | [] => found
  | x :: s' => lastIndexFrom (i + 1) (if x =? c then i else found) c s'
  end.
Definition lastIndexOf (s : JsString) (c : N) : Z := lastIndexFrom 0%Z (-1)%Z c s.

(** [s.substring(i)]: a negative start counts as 0. *)
Definition substringFrom (i : Z) (s : JsString) : JsString := drop (Z.to_nat i) s.

Definition notFullySupported : JsString :=
  lit "File type not fully supported, but we'll try to extract text from it.".

(** What [axios.post] is asked, and how the promise settles. *)
Inductive Request : Type :=
  | PostText (text : JsString)
  | PostUpload (file : Browser.File).

Module Axios.
Record Response : Type := { status : N; data : option Json }.
Record Error : Type := { code : option JsString; response : option Response }.
End Axios.

Inductive Settled : Type :=
  | Resolved (response : Axios.Response)
  | Rejected (err : Axios.Error).

(** [err.response?.data?.error]; an absent value reads as the empty string,
    which [||] treats alike. *)
Definition dataError (err : Axios.Error) : JsString :=
  match Axios.response err with
  | Some {| Axios.data := Some (ErrorJson (Some e)) |} => e
  | _ => []
  end.

(** [err.response?.status === n]. *)
Definition statusIs (err : Axios.Error) (n : N) : bool :=
  match Axios.response err with
  | Some r => Axios.status r =? n
  | None => false
  end.

(** [err.code === c]. *)
Definition codeIs (err : Axios.Error) (c : JsString) : bool :=
  match Axios.code err with
  | Some x => strictEq x c
  | None => false
  end.

(** The message chosen by the [catch] block of [handleProcess]. *)
Definition processError (err : Axios.Error) : JsString :=
  if codeIs err (lit "ECONNABORTED")
  then lit "Request timed out. The AI is taking too long to process. Please try with shorter content."
  else if statusIs err 500
  then lit "Server error: "
       ++ orElse (dataError err) (lit "Internal server error. Please try again.")
  else if statusIs err 400
  then lit "Input error: "
       ++ orElse (dataError err) (lit "Invalid input. Please check your content.")
  else if codeIs err (lit "ERR_NETWORK")
  then lit "Network error. Please check if the server is running and try again."
  else orElse (dataError err) (lit "Failed to process content. Please try again.").

(** [response.data && response.data.success]. *)
Definition succeeded (r : Axios.Response) : bool :=
  match Axios.data r with
  | Some (NotesJson _ _ _) => true
  | _ => false
  end.

Section FrontEnd.

Variable toLowerCase : JsString -> JsString.
(** [axios.post(url, body, config)], awaited. *)
Variable post : Request -> Settled.

Definition handleFileSelect (selectedFile : option Browser.File) (st : App.State)
  : App.State :=
  match selectedFile with
  | Some f =>
      let fileExtension :=
        substringFrom (lastIndexOf (Browser.name f) 0x2E)
          (toLowerCase (Browser.name f)) in
      if arrayIncludes supportedTypes (Browser.type f)
         || arrayIncludes supportedExtensions fileExtension
      then setError [] (setFile (Some f) st)
      else setError notFullySupported (setFile (Some f) st)
  | None => setError (lit "Please select a file") st
  end.

(** [handleDrop], given [e.dataTransfer.files[0]]. *)
Definition handleDrop (droppedFile : option Browser.File) (st : App.State)
  : App.State :=
  handleFileSelect droppedFile (setDragOver false st).

Definition handleDragOver (st : App.State) : App.State := setDragOver true st.
Definition handleDragLeave (st : App.State) : App.State := setDragOver false st.

(** The [try], [catch] and [finally] of [handleProcess] around one
    request. *)
Definition submit (request : Request) (st : App.State) : list Request * App.State :=
  let st := setResults None (setError [] (setLoading true st)) in
  ([request],
   setLoading false
     match post request with
     | Resolved response =>
         if succeeded response then setResults (Axios.data response) st
         else setError (lit "Unexpected response from server. Please try again.") st
     | Rejected err => setError (processError err) st
     end).

(** [handleProcess]: the requests sent and the state once it has run.  The
    three guards return early; past them the mode is ['text'] or a file is
    selected. *)
Definition handleProcess (st : App.State) : list Request * App.State :=
  match App.inputMode st, App.file st with
  | FileMode, None => ([], setError (lit "Please select a file first") st)
  | FileMode, Some f => submit (PostUpload f) st
  | TextMode, _ =>
      if blank (App.textInput st)
      then ([], setError (lit "Please enter some text to process") st)
      else if 200000 <? N.of_nat (length (App.textInput st))
      then ([], setError (lit "Text is too long. Please limit to 200,000 characters.") st)
      else submit (PostText (App.textInput st)) st
  end.

End FrontEnd.

(** How [axios] settles on a reply of the server: it resolves for a status
    from 200 to 299 and otherwise rejects with the reply attached. *)
Definition delivered (reply : HttpResponse) : Settled :=
  let response := {| Axios.status := status reply; Axios.data := Some (json reply) |} in
  if (200 <=? status reply) && (status reply <? 300) then Resolved response
  else Rejected {| Axios.code :=
                     Some (if status reply <? 500 then lit "ERR_BAD_REQUEST"
                           else lit "ERR_BAD_RESPONSE");
                   Axios.response := Some response |}.

(** A stand-in for the network: a posted text reaches the route, served by
    a model that always gives the same reply, and the route's reply reaches
    the browser; an upload meets a network failure. *)
Module StandinServer.

Definition post (reply : JsString) (request : Request) : Settled :=
  match request with
  | PostText text =>
      delivered
        (snd (processTextRoute (StandinModel.replies reply) StandinModel.typeError
                (Some text)))
  | PostUpload _ =>
      Rejected {| Axios.code := Some (lit "ERR_NETWORK"); Axios.response := None |}
  end.

Definition typing (text : JsString) : App.State :=
  {| App.file := None; App.textInput := text; App.loading := false;
     App.results := None; App.error := []; App.dragOver := false;
     App.inputMode := TextMode |}.

End StandinServer.

(** ** The endpoints: middleware, then handler *)

(** The limit of [express.json()] on the body of a request, in bytes: its
    default, [100kb]. *)
Definition jsonBodyLimit : N := 102400.

(** [limits.fileSize] of the [multer] instance: [10 * 1024 * 1024]. *)
Definition fileSizeLimit : N := 10 * 1024 * 1024.

(** What the server sends back: the reply of the handler, or, when a
    middleware raised an error before the handler ran, the error page of
    Express with the status of that error. *)
Inductive ServerReply : Type :=
  | Handled (reply : HttpResponse)
  | Refused (status : N).

(** A request to [/api/process-text] whose body is a JSON object: the length
    of the body in bytes, once inflated, and its member [text] when that is
    a string. *)
Record TextRequest : Type := { bodyLength : N; bodyText : option JsString }.

(** The text of a body takes at least one byte for each of its code units,
    beside the eleven bytes of the braces, the key, the colon and the
    quotes. *)
Definition wellFormed (request : TextRequest) : Prop :=
  match bodyText request with
  | Some t => N.of_nat (length t) + 11 <= bodyLength request
  | None => True
  end.

(** The file part of a multipart request to [/api/upload], if any. *)
Module Part.
Record File (Buffer : Type) : Type :=
  { fieldname : JsString; filename : JsString; contentType : option JsString;
    content : Buffer }.
Arguments fieldname {Buffer} f.
Arguments filename {Buffer} f.
Arguments contentType {Buffer} f.
Arguments content {Buffer} f.
End Part.

Section Endpoints.

Variable generateContent : JsString -> Completion JsString.
Variable typeError : JsObject.
Variable Buffer : Type.
Variable toStringUtf8 : Buffer -> Completion JsString.
Variable extname : JsString -> JsString.
Variable toLowerCase : JsString -> JsString.
Variable pdfParse : Buffer -> Completion PdfData.
Variable extractRawText : Buffer -> Completion MammothResult.
(** [buffer.length], in bytes. *)
Variable byteLength : Buffer -> N.
(** Whether the multipart parser in use lets a file of exactly the limit
    through: its releases differ on that. *)
Variable atLimitAccepted : bool.

Definition handled (outcome : Traced HttpResponse) : Traced ServerReply :=
  (fst outcome, Handled (snd outcome)).

(** [app.use(express.json())] before the handler of [/api/process-text]: a
    body above the limit is answered 413 and the handler does not run. *)
Definition processTextEndpoint (request : TextRequest) : Traced ServerReply :=
  if jsonBodyLimit <? bodyLength request then ([], Refused 413)
  else handled (processTextRoute generateContent typeError (bodyText request)).

(** The file size [multer] turns down. *)
Definition overFileSizeLimit (n : N) : bool :=
  (fileSizeLimit <? n) || ((n =? fileSizeLimit) && negb atLimitAccepted).

(** [req.file] for a part that passed, held in memory. *)
Definition received (p : Part.File Buffer) : Multer.File Buffer :=
  {| Multer.buffer := Part.content p;
     Multer.size := byteLength (Part.content p);
     Multer.mimetype := Part.contentType p;
     Multer.originalname := Part.filename p |}.

(** [upload.single('pdf')] before the handler of [/api/upload], on a request
    with at most one file part: a part without a file name is passed over; a
    file in another field, or a file over the size limit, raises a
    [MulterError], which has no status and is answered 500; otherwise the
    handler gets the file, whose size is the length of its buffer. *)
Definition uploadEndpoint (part : option (Part.File Buffer)) : Traced ServerReply :=
  match part with
  | None =>
      handled (uploadRoute generateContent typeError Buffer toStringUtf8 extname
                 toLowerCase pdfParse extractRawText None)
  | Some p =>
      match Part.filename p with
      | [] =>
          handled (uploadRoute generateContent typeError Buffer toStringUtf8 extname
                     toLowerCase pdfParse extractRawText None)
      | _ :: _ =>
          if negb (strictEq (Part.fieldname p) (lit "pdf")) then ([], Refused 500)
          else if overFileSizeLimit (byteLength (Part.content p)) then ([], Refused 500)
          else
            handled
              (uploadRoute generateContent typeError Buffer toStringUtf8 extname
                 toLowerCase pdfParse extractRawText (Some (received p)))
      end
  end.

End Endpoints.

(** How [axios] settles on what the server sends back; the error page of a
    refusal is not a JSON object, so that its [data] has no member. *)
Definition settled (reply : ServerReply) : Settled :=
  match reply with
  | Handled r => delivered r
  | Refused code =>
      Rejected {| Axios.code :=
                    Some (if code <? 500 then lit "ERR_BAD_REQUEST"
                          else lit "ERR_BAD_RESPONSE");
                  Axios.response := Some {| Axios.status := code; Axios.data := None |} |}
  end.

(** Stand-ins for what the upload endpoint is given: a buffer of one byte
    per unit, and a parser that lets a file of exactly the limit through. *)
Module StandinUpload.

Definition byteLength (buffer : Standin.Buffer) : N := N.of_nat (length buffer).
Definition atLimitAccepted : bool := true.

Definition uploadEndpoint (pdfParse : Standin.Buffer -> Completion PdfData)
  : option (Part.File Standin.Buffer) -> Traced ServerReply :=
  uploadEndpoint (StandinModel.replies (lit "ok")) StandinModel.typeError
    Standin.Buffer Standin.toStringUtf8 Standin.extname Standin.toLowerCase
    pdfParse Standin.wordCorrupt byteLength atLimitAccepted.

End StandinUpload.

(** ** Facts about [trim] *)

Lemma dropWhile_head (p : N -> bool) (s : JsString) :
  match dropWhile p s with
  | [] => True
  | c :: _ => p c = false
  end.
Proof.
  induction s as [|c s IH]; simpl; [done|].
  destruct (p c) eqn:Hc; [exact IH | exact Hc].
Qed.

Lemma dropWhile_split (p : N -> bool) (s : JsString) :
  exists ws, forallb p ws = true /\ s = ws ++ dropWhile p s.
Proof.
  induction s as [|c s (ws & Hws & Hs)]; simpl.
  - by exists [].
  - destruct (p c) eqn:Hc.
    + exists (c :: ws). simpl. rewrite Hc, Hws. split; [done|]. by rewrite <- Hs.
    + by exists [].
Qed.

Lemma dropWhile_id (p : N -> bool) (s : JsString) :
  match s with [] => True | c :: _ => p c = false end -> dropWhile p s = s.
Proof. destruct s as [|c s]; simpl; [done|]. by intros ->. Qed.

Lemma trimEnd_split (s : JsString) :
  exists ws, forallb isSpace ws = true /\ s = trimEnd s ++ ws.
Proof.
  unfold trimEnd. destruct (dropWhile_split isSpace (rev s)) as (ws & Hws & Hs).
  exists (rev ws). split.
  - rewrite forallb_forall in *. intros c Hc. apply Hws. by apply in_rev.
  - rewrite <- rev_app_distr, <- Hs. by rewrite rev_involutive.
Qed.

Lemma headSpace_trimEnd_rev (s : JsString) : headSpace (rev (trimEnd s)) = false.
Proof.
  unfold trimEnd. rewrite rev_involutive.
  pose proof (dropWhile_head isSpace (rev s)) as H.
  by destruct (dropWhile isSpace (rev s)).
Qed.

Lemma trimEnd_id (s : JsString) : headSpace (rev s) = false -> trimEnd s = s.
Proof.
  intros H. unfold trimEnd. rewrite dropWhile_id; [apply rev_involutive|].
  by destruct (rev s).
Qed.

Lemma trim_not_padded (s : JsString) : padded (trim s) = false.
Proof.
  unfold padded, trim. rewrite headSpace_trimEnd_rev, orb_false_r.
  destruct (trimEnd_split (trimStart s)) as (ws & _ & Hs).
  pose proof (dropWhile_head isSpace s) as Hhd. fold (trimStart s) in Hhd.
  destruct (trimEnd (trimStart s)) as [|c r]; [done|].
  rewrite Hs in Hhd. exact Hhd.
Qed.

Lemma headSpace_rev_app (u v : JsString) :
  u <> [] -> headSpace (rev (v ++ u)) = headSpace (rev u).
Proof.
  intros Hu. rewrite rev_app_distr.
  destruct (rev u) as [|c r] eqn:Hr; [|done].
  apply (f_equal (@rev N)) in Hr. rewrite rev_involutive in Hr. done.
Qed.


(** ** Literal prefixes and the lazy group *)

Lemma stripPrefix_sound (p s r : JsString) :
  stripPrefix p s = Some r -> s = p ++ r.
Proof.
  revert s. induction p as [|a p IH]; intros s; simpl.
  - by intros [= ->].
  - destruct s as [|c s]; [done|].
    destruct (N.eqb_spec a c) as [->|]; [|done].
    intros H. by rewrite (IH _ H).
Qed.

Lemma oneLine_app (u v : JsString) : oneLine (u ++ v) = oneLine u && oneLine v.
Proof. apply forallb_app. Qed.

Lemma lazyDot_sound {A} (k : JsString -> option A) (s cap : JsString) (a : A) :
  lazyDot k s = Some (cap, a) ->
  exists rest, s = cap ++ rest /\ k rest = Some a /\ oneLine cap = true.
Proof.
  revert cap. induction s as [|c s IH]; intros cap; simpl.
  - destruct (k []) eqn:Hk; [|done]. intros [= <- <-]. by exists [].
  - destruct (k (c :: s)) eqn:Hk.
    + intros [= <- <-]. by exists (c :: s).
    + destruct (isLineTerminator c) eqn:Hc; [done|].
      destruct (lazyDot k s) as [[cap' a']|] eqn:Hl; [|done].
      intros [= <- <-]. destruct (IH cap' eq_refl) as (rest & -> & Hrest & Hcap).
      exists rest. simpl. by rewrite Hc.
Qed.

(** ** Global replacement: the fuel is enough *)

Lemma gsubFrom_fuel (m : Matcher) :
  consuming m ->
  forall (f1 f2 : nat) (s : JsString),
    (length s <= f1)%nat -> (length s <= f2)%nat ->
    gsubFrom m f1 s = gsubFrom m f2 s.
Proof.
  intros Hm. induction f1 as [|f1 IH]; intros f2 s H1 H2.
  - destruct s; [|simpl in H1; lia]. destruct f2; simpl; [done|].
    destruct (m []) as [[r rest]|] eqn:Hr; [|done].
    apply Hm in Hr. simpl in Hr. lia.
  - destruct f2 as [|f2].
    + destruct s; [|simpl in H2; lia]. simpl.
      destruct (m []) as [[r rest]|] eqn:Hr; [|done].
      apply Hm in Hr. simpl in Hr. lia.
    + simpl. destruct (m s) as [[r rest]|] eqn:Hr.
      * apply Hm in Hr. f_equal. apply IH; lia.
      * destruct s as [|c s]; [done|]. simpl in *. f_equal. apply IH; lia.
Qed.

(** The loop equation of [replace] with a global pattern. *)
Lemma gsub_unfold (m : Matcher) (s : JsString) :
  consuming m ->
  gsub m s =
    match m s with
    | Some (r, rest) => r ++ gsub m rest
    | None =>
        match s with
        | [] => []
        | c :: s' => c :: gsub m s'
        end
    end.
Proof.
  intros Hm. unfold gsub. destruct s as [|c s].
  - simpl. destruct (m []) as [[r rest]|] eqn:Hr; [|done].
    apply Hm in Hr. simpl in Hr. lia.
  - cbn [length gsubFrom]. destruct (m (c :: s)) as [[r rest]|] eqn:Hr; [|done].
    apply Hm in Hr. simpl in Hr. f_equal. apply gsubFrom_fuel; [done|lia|lia].
Qed.

(** Induction along the loop. *)
Lemma gsub_ind (m : Matcher) (P : JsString -> JsString -> Prop) :
  consuming m ->
  P [] [] ->
  (forall s r rest, m s = Some (r, rest) ->
     P rest (gsub m rest) -> P s (r ++ gsub m rest)) ->
  (forall c s, m (c :: s) = None -> P s (gsub m s) -> P (c :: s) (c :: gsub m s)) ->
  forall s, P s (gsub m s).
Proof.
  intros Hm Hnil Hmatch Hskip s.
  remember (length s) as n eqn:Hn. revert s Hn.
  induction n as [n IH] using lt_wf_ind. intros s ->.
  rewrite gsub_unfold by done.
  destruct (m s) as [[r rest]|] eqn:Hr.
  - apply Hmatch; [done|]. apply (IH (length rest)); [by apply Hm in Hr|done].
  - destruct s as [|c s]; [done|].
    apply Hskip; [done|]. apply (IH (length s)); [simpl; lia|done].
Qed.

Lemma gsub_noMatch (m : Matcher) (s : JsString) :
  hasMatch m s = false -> gsub m s = s.
Proof.
  unfold gsub. generalize (length s) as f. intros f. revert s.
  induction f as [|f IH]; intros s H; simpl; [done|].
  destruct s as [|c s]; simpl in H; destruct (m _) as [[r rest]|]; try done.
  f_equal. by apply IH.
Qed.

(** ** Deletions inside lines *)

Lemma lineSub_refl (s : JsString) : lineSub s s.
Proof. induction s; constructor; done. Qed.

Lemma lineSub_app_keep (u a b : JsString) :
  lineSub a b -> lineSub (u ++ a) (u ++ b).
Proof. intros H. induction u; simpl; [done|]. by constructor. Qed.

Lemma lineSub_app_drop (d a b : JsString) :
  oneLine d = true -> lineSub a b -> lineSub a (d ++ b).
Proof.
  intros Hd H. induction d as [|x d IH]; simpl; [done|].
  simpl in Hd. apply andb_true_iff in Hd as [Hx Hd].
  apply lineSub_drop; [by apply negb_true_iff | by apply IH].
Qed.

Lemma lineSub_In (a b : JsString) (x : N) : lineSub a b -> In x a -> In x b.
Proof.
  induction 1 as [|y a b _ IH|y a b _ _ IH]; simpl; [done| |]; intuition.
Qed.

Lemma lineSub_oneLine (a b : JsString) :
  lineSub a b -> oneLine b = true -> oneLine a = true.
Proof.
  induction 1 as [|y a b _ IH|y a b _ _ IH]; simpl; [done| |];
    rewrite ?andb_true_iff; intuition.
Qed.

Lemma atMostOnePerLine_seen (c : N) (s : JsString) :
  atMostOnePerLine c true s = true -> atMostOnePerLine c false s = true.
Proof.
  induction s as [|x s IH]; simpl; [done|].
  destruct (isLineTerminator x); [done|]. destruct (x =? c); [done|]. exact IH.
Qed.

Lemma atMostOnePerLine_tail (c x : N) (seen : bool) (s : JsString) :
  atMostOnePerLine c seen (x :: s) = true -> atMostOnePerLine c false s = true.
Proof.
  simpl. destruct (isLineTerminator x); [done|]. destruct (x =? c).
  - destruct seen; [done | apply atMostOnePerLine_seen].
  - destruct seen; [apply atMostOnePerLine_seen | done].
Qed.

Lemma lineSub_atMostOnePerLine (c : N) (a b : JsString) :
  lineSub a b ->
  forall seen, atMostOnePerLine c seen b = true -> atMostOnePerLine c seen a = true.
Proof.
  induction 1 as [|x a b _ IH|x a b Hx _ IH]; intros seen; simpl; [done| |].
  - destruct (isLineTerminator x); [apply IH|].
    destruct (x =? c); [destruct seen; [done|apply IH] | apply IH].
  - rewrite Hx. destruct (x =? c); [|apply IH].
    destruct seen; [done|]. intros H. apply atMostOnePerLine_seen. by apply IH.
Qed.

(** A run without [c] and without line terminator does not change the count. *)
Lemma atMostOnePerLine_skip (c : N) (seen : bool) (u s : JsString) :
  oneLine u = true -> ~ In c u ->
  atMostOnePerLine c seen (u ++ s) = atMostOnePerLine c seen s.
Proof.
  induction u as [|x u IH]; simpl; [done|].
  intros Hu Hc. apply andb_true_iff in Hu as [Hx Hu].
  apply negb_true_iff in Hx. rewrite Hx.
  destruct (N.eqb_spec x c) as [->|_]; [tauto|]. apply IH; tauto.
Qed.

(** A second [c] on the line is one too many. *)
Lemma atMostOnePerLine_second (c : N) (u s : JsString) :
  isLineTerminator c = false -> oneLine u = true ->
  atMostOnePerLine c true (u ++ c :: s) = false.
Proof.
  intros Hc. induction u as [|x u IH]; simpl.
  - by rewrite Hc, N.eqb_refl.
  - intros Hu. apply andb_true_iff in Hu as [Hx Hu].
    apply negb_true_iff in Hx. rewrite Hx. destruct (x =? c); auto.
Qed.

(** ** The shape of a match *)

Lemma matchWrapped_shape (d s cap rest : JsString) :
  matchWrapped d s = Some (cap, rest) ->
  s = d ++ cap ++ d ++ rest /\ oneLine cap = true.
Proof.
  unfold matchWrapped. destruct (stripPrefix d s) as [s1|] eqn:H1; [|done].
  intros H2. apply stripPrefix_sound in H1 as ->.
  apply lazyDot_sound in H2 as (r & -> & H3 & Hcap).
  apply stripPrefix_sound in H3 as ->. done.
Qed.

Lemma matchHeading_shape (k : nat) (s r rest : JsString) :
  matchHeading k s = Some (r, rest) ->
  r = [] /\ exists ws, forallb isSpace ws = true /\ s = repeat hash k ++ ws ++ rest.
Proof.
  unfold matchHeading. destruct (stripPrefix (repeat hash k) s) as [s1|] eqn:H1; [|done].
  intros [= <- <-]. split; [done|]. apply stripPrefix_sound in H1 as ->.
  destruct (dropWhile_split isSpace s1) as (ws & Hws & Hs). exists ws. by rewrite <- Hs.
Qed.

Lemma matchLink_shape (s cap rest : JsString) :
  matchLink s = Some (cap, rest) ->
  exists body,
    s = lit "[" ++ cap ++ lit "](" ++ body ++ lit ")" ++ rest
    /\ oneLine cap = true /\ oneLine body = true.
Proof.
  unfold matchLink. destruct (stripPrefix (lit "[") s) as [s1|] eqn:H1; [|done].
  intros H2. apply stripPrefix_sound in H1 as ->.
  apply lazyDot_sound in H2 as (t & -> & H3 & Hcap).
  destruct (stripPrefix (lit "](") t) as [t1|] eqn:H4; [|done].
  destruct (lazyDot (stripPrefix (lit ")")) t1) as [[body r]|] eqn:H5; [|done].
  injection H3 as ->. apply stripPrefix_sound in H4 as ->.
  apply lazyDot_sound in H5 as (u & -> & H6 & Hbody).
  apply stripPrefix_sound in H6 as ->. by exists body.
Qed.

Lemma matchWrapped_consuming (d : JsString) : d <> [] -> consuming (matchWrapped d).
Proof.
  intros Hd s cap rest H. apply matchWrapped_shape in H as [-> _].
  rewrite !length_app. destruct d; [done|]. simpl. lia.
Qed.

Lemma matchHeading_consuming (k : nat) : consuming (matchHeading (S k)).
Proof.
  intros s r rest H. apply matchHeading_shape in H as (_ & ws & _ & ->).
  rewrite !length_app. simpl. lia.
Qed.

Lemma matchLink_consuming : consuming matchLink.
Proof.
  intros s cap rest H. apply matchLink_shape in H as (body & -> & _).
  rewrite !length_app. simpl. lia.
Qed.

(** ** Every rule deletes inside lines on safe input *)

Lemma matchWrapped_lineSub (d s : JsString) :
  d <> [] -> oneLine d = true -> lineSub (gsub (matchWrapped d) s) s.
Proof.
  intros Hd Hline. apply (gsub_ind (matchWrapped d) (fun s out => lineSub out s)).
  - by apply matchWrapped_consuming.
  - constructor.
  - intros s' cap rest H IH. apply matchWrapped_shape in H as [-> Hcap].
    apply lineSub_app_drop; [done|]. apply lineSub_app_keep.
    by apply lineSub_app_drop.
  - intros c s' _ IH. by constructor.
Qed.

Lemma matchLink_lineSub (s : JsString) : lineSub (gsub matchLink s) s.
Proof.
  apply (gsub_ind matchLink (fun s out => lineSub out s)).
  - apply matchLink_consuming.
  - constructor.
  - intros s' cap rest H IH. apply matchLink_shape in H as (body & -> & Hcap & Hbody).
    apply lineSub_app_drop; [done|]. apply lineSub_app_keep.
    apply lineSub_app_drop; [done|]. apply lineSub_app_drop; [done|].
    by apply lineSub_app_drop.
  - intros c s' _ IH. by constructor.
Qed.

Lemma matchHeading_lineSub_oneLine (k : nat) (s : JsString) :
  oneLine s = true -> lineSub (gsub (matchHeading (S k)) s) s.
Proof.
  apply (gsub_ind (matchHeading (S k))
           (fun s out => oneLine s = true -> lineSub out s)).
  - apply matchHeading_consuming.
  - constructor.
  - intros s' r rest H IH Hs. apply matchHeading_shape in H as (-> & ws & Hws & ->).
    rewrite !oneLine_app, !andb_true_iff in Hs. destruct Hs as (Hh & Hw & Hr).
    apply lineSub_app_drop; [done|]. apply lineSub_app_drop; [done|]. by apply IH.
  - intros c s' _ IH Hs. simpl in Hs. apply andb_true_iff in Hs as [_ Hs].
    constructor. by apply IH.
Qed.

Lemma matchHeading_noMatch (k : nat) (s : JsString) :
  ~ In hash s -> hasMatch (matchHeading (S k)) s = false.
Proof.
  induction s as [|c s IH]; intros H; cbn [hasMatch]; [done|].
  assert (matchHeading (S k) (c :: s) = None) as ->.
  { unfold matchHeading. cbn [repeat stripPrefix].
    destruct (N.eqb_spec hash c) as [<-|_]; [simpl in H; tauto | done]. }
  apply IH. simpl in H. tauto.
Qed.

Lemma matchHeading_deleting (k : nat) : deleting (matchHeading (S k)).
Proof.
  intros s [Hs|Hs].
  - by apply matchHeading_lineSub_oneLine.
  - rewrite gsub_noMatch by by apply matchHeading_noMatch. apply lineSub_refl.
Qed.

Lemma matchWrapped_deleting (d : JsString) :
  d <> [] -> oneLine d = true -> deleting (matchWrapped d).
Proof. intros Hd Hl s _. by apply matchWrapped_lineSub. Qed.

Lemma matchLink_deleting : deleting matchLink.
Proof. intros s _. apply matchLink_lineSub. Qed.

Lemma safe_lineSub (a b : JsString) : lineSub a b -> safe b -> safe a.
Proof.
  intros H [Hb|Hb]; [left | right].
  - by apply (lineSub_oneLine a b).
  - intros Ha. apply Hb. by apply (lineSub_In a b).
Qed.

(** One step of a chain keeps what earlier steps established. *)
Lemma deleting_step (m : Matcher) (s : JsString) :
  deleting m -> safe s ->
  safe (gsub m s)
  /\ (forall c, atMostOnePerLine c false s = true ->
                atMostOnePerLine c false (gsub m s) = true)
  /\ (forall c, ~ In c s -> ~ In c (gsub m s)).
Proof.
  intros Hm Hs. specialize (Hm s Hs). repeat split.
  - by apply (safe_lineSub (gsub m s) s).
  - intros c. by apply lineSub_atMostOnePerLine.
  - intros c Hh Hin. apply Hh. by apply (lineSub_In (gsub m s) s).
Qed.

(** ** What a single-character wrapper rule and the last heading rule
    establish *)

Lemma lazyDot_unfold {A} (k : JsString -> option A) (s : JsString) :
  lazyDot k s =
    match k s with
    | Some a => Some ([], a)
    | None =>
        match s with
        | [] => None
        | c :: s' =>
            if isLineTerminator c then None
            else match lazyDot k s' with
                 | Some (cap, a) => Some (c :: cap, a)
                 | None => None
                 end
        end
    end.
Proof. by destruct s. Qed.

Lemma stripPrefix_single (c x : N) (s : JsString) :
  stripPrefix [c] (x :: s) = if c =? x then Some s else None.
Proof. done. Qed.

Lemma matchWrapped_single_other (c x : N) (s : JsString) :
  x <> c -> matchWrapped [c] (x :: s) = None.
Proof.
  intros Hx. unfold matchWrapped. rewrite stripPrefix_single.
  destruct (N.eqb_spec c x); [congruence | done].
Qed.

Lemma matchWrapped_single_same (c : N) (s : JsString) :
  matchWrapped [c] (c :: s) = lazyDot (stripPrefix [c]) s.
Proof. unfold matchWrapped. rewrite stripPrefix_single. by rewrite N.eqb_refl. Qed.

(** The lazy group stops at the first [c]. *)
Lemma lazyDot_single (c : N) (s cap rest : JsString) :
  lazyDot (stripPrefix [c]) s = Some (cap, rest) ->
  oneLine cap = true /\ ~ In c cap.
Proof.
  revert cap rest. induction s as [|x s IH]; intros cap rest;
    rewrite lazyDot_unfold; [done|].
  rewrite stripPrefix_single. destruct (N.eqb_spec c x) as [->|Hx].
  - intros [= <- _]. simpl. tauto.
  - destruct (isLineTerminator x) eqn:Hlt; [done|].
    destruct (lazyDot (stripPrefix [c]) s) as [[cap' r']|] eqn:Hl; [|done].
    intros [= <- <-]. destruct (IH cap' r' eq_refl) as [Hcap Hin].
    split; [simpl; by rewrite Hlt|]. simpl. intros [?|?]; [congruence | done].
Qed.

Lemma lazyDot_single_same (c : N) (s : JsString) :
  lazyDot (stripPrefix [c]) (c :: s) = Some ([], s).
Proof. rewrite lazyDot_unfold, stripPrefix_single. by rewrite N.eqb_refl. Qed.

Lemma lazyDot_single_None (c x : N) (s : JsString) :
  x <> c -> isLineTerminator x = false ->
  lazyDot (stripPrefix [c]) (x :: s) = None ->
  lazyDot (stripPrefix [c]) s = None.
Proof.
  intros Hx Hlt. rewrite lazyDot_unfold, stripPrefix_single.
  destruct (N.eqb_spec c x); [congruence|]. rewrite Hlt.
  by destruct (lazyDot (stripPrefix [c]) s) as [[? ?]|].
Qed.

Lemma matchWrapped_single_count (c : N) :
  isLineTerminator c = false ->
  forall (n : nat) (s : JsString),
    (length s <= n)%nat ->
    atMostOnePerLine c false (gsub (matchWrapped [c]) s) = true
    /\ (lazyDot (stripPrefix [c]) s = None ->
        atMostOnePerLine c true (gsub (matchWrapped [c]) s) = true).
Proof.
  intros Hc.
  assert (Hm : consuming (matchWrapped [c])) by by apply matchWrapped_consuming.
  induction n as [|n IH]; intros s Hn.
  - destruct s; [|simpl in Hn; lia]. done.
  - destruct s as [|x s]; [done|]. simpl in Hn.
    rewrite gsub_unfold by done.
    destruct (N.eq_dec x c) as [->|Hx].
    + rewrite matchWrapped_single_same. split.
      * destruct (lazyDot (stripPrefix [c]) s) as [[cap rest]|] eqn:Hl.
        -- destruct (lazyDot_single _ _ _ _ Hl) as [Hcap Hin].
           rewrite atMostOnePerLine_skip by done.
           apply lazyDot_sound in Hl as (r & -> & Hr & _).
           apply stripPrefix_sound in Hr as ->.
           apply IH. rewrite length_app in Hn. simpl in Hn. lia.
        -- simpl. rewrite Hc, N.eqb_refl. apply IH; [lia|done].
      * by rewrite lazyDot_single_same.
    + rewrite matchWrapped_single_other by done. cbn [atMostOnePerLine].
      apply N.eqb_neq in Hx as Hx'. rewrite Hx'.
      destruct (isLineTerminator x) eqn:Hlt.
      * split; intros; apply IH; lia.
      * split; [apply IH; lia|]. intros Hl. apply IH; [lia|].
        by apply (lazyDot_single_None c x).
Qed.

Lemma matchWrapped_single_establishes (c : N) (s : JsString) :
  isLineTerminator c = false ->
  atMostOnePerLine c false (gsub (matchWrapped [c]) s) = true.
Proof. intros Hc. by apply (matchWrapped_single_count c Hc (length s) s). Qed.

Lemma matchHeading_single_establishes (s : JsString) :
  ~ In hash (gsub (matchHeading 1) s).
Proof.
  apply (gsub_ind (matchHeading 1) (fun _ out => ~ In hash out)).
  - apply matchHeading_consuming.
  - simpl. tauto.
  - intros s' r rest H IH. by apply matchHeading_shape in H as (-> & _).
  - intros c s' H IH. unfold matchHeading in H. cbn [repeat stripPrefix] in H.
    destruct (N.eqb_spec hash c) as [<-|Hx]; [done|].
    simpl. intros [?|?]; [congruence | done].
Qed.

(** ** On a clean string no marker pattern matches *)

Lemma matchWrapped_noMatch (c : N) (k : nat) (s : JsString) :
  isLineTerminator c = false ->
  atMostOnePerLine c false s = true ->
  hasMatch (matchWrapped (repeat c (S k))) s = false.
Proof.
  intros Hc. induction s as [|x s IH]; intros Hs; cbn [hasMatch].
  - by destruct k.
  - destruct (matchWrapped (repeat c (S k)) (x :: s)) as [[cap rest]|] eqn:Hm.
    + apply matchWrapped_shape in Hm as [Heq Hcap].
      cbn [repeat app] in Heq. rewrite Heq in Hs.
      assert (Hmid : oneLine (repeat c k ++ cap) = true).
      { rewrite oneLine_app, Hcap, andb_true_r. clear -Hc.
        induction k; simpl; [done|]. by rewrite Hc. }
      simpl in Hs. rewrite Hc, N.eqb_refl in Hs.
      rewrite app_assoc in Hs.
      by rewrite (atMostOnePerLine_second c _ _ Hc Hmid) in Hs.
    + apply IH. by apply (atMostOnePerLine_tail c x false).
Qed.

Lemma clean_noMarkers (s : JsString) : clean s -> noMarkers s = true.
Proof.
  intros (Hstar & Hunder & Htick & Hhash).
  unfold noMarkers, displayRules. cbn [forallb].
  unfold tripleStar, doubleStar, singleStar, doubleUnderscore, singleUnderscore,
    backtick, heading3, heading2, heading1.
  change (lit "***") with (repeat star 3). change (lit "**") with (repeat star 2).
  change (lit "*") with (repeat star 1).
  change (lit "__") with (repeat underscore 2).
  change (lit "_") with (repeat underscore 1).
  change (lit "`") with (repeat tick 1).
  rewrite !matchWrapped_noMatch, !matchHeading_noMatch by done. done.
Qed.

Lemma applyRules_fixed (rules : list Matcher) (s : JsString) :
  forallb (fun m => negb (hasMatch m s)) rules = true -> applyRules rules s = s.
Proof.
  unfold applyRules. induction rules as [|m rules IH]; simpl; [done|].
  rewrite andb_true_iff, negb_true_iff. intros [Hm Hrest].
  rewrite gsub_noMatch by done. by apply IH.
Qed.

Lemma clean_fixed (s : JsString) : clean s -> cleanContent s = s.
Proof. intros H. apply applyRules_fixed. by apply clean_noMarkers. Qed.

Lemma matchLink_noMatch (s : JsString) :
  ~ In openBracket s -> hasMatch matchLink s = false.
Proof.
  induction s as [|c s IH]; intros H; cbn [hasMatch]; [done|].
  assert (matchLink (c :: s) = None) as ->.
  { unfold matchLink. change (lit "[") with [openBracket].
    rewrite stripPrefix_single.
    destruct (N.eqb_spec openBracket c) as [<-|_]; [simpl in H; tauto | done]. }
  apply IH. simpl in H. tauto.
Qed.

Lemma clean_response_fixed (s : JsString) :
  clean s -> hasMatch matchLink s = false -> cleanResponse s = s.
Proof.
  intros Hclean Hlink. apply applyRules_fixed.
  apply clean_noMarkers in Hclean. unfold noMarkers, displayRules in Hclean.
  unfold responseRules. cbn [forallb] in *.
  rewrite !andb_true_iff in Hclean. rewrite !andb_true_iff, Hlink. tauto.
Qed.

(** ** The two chains on safe input *)

Ltac rule_deleting :=
  first [ apply matchLink_deleting
        | apply matchHeading_deleting
        | apply matchWrapped_deleting; done ].

Lemma cleanContent_clean (x : JsString) : safe x -> clean (cleanContent x).
Proof.
  intros S0. unfold cleanContent, applyRules, displayRules. cbn [fold_left].
  set (s1 := gsub tripleStar x).
  set (s2 := gsub doubleStar s1).
  set (s3 := gsub singleStar s2).
  set (s4 := gsub doubleUnderscore s3).
  set (s5 := gsub singleUnderscore s4).
  set (s6 := gsub backtick s5).
  set (s7 := gsub heading3 s6).
  set (s8 := gsub heading2 s7).
  destruct (deleting_step tripleStar x ltac:(rule_deleting) S0) as (S1 & _ & _).
  destruct (deleting_step doubleStar s1 ltac:(rule_deleting) S1) as (S2 & _ & _).
  destruct (deleting_step singleStar s2 ltac:(rule_deleting) S2) as (S3 & _ & _).
  destruct (deleting_step doubleUnderscore s3 ltac:(rule_deleting) S3) as (S4 & P4 & _).
  destruct (deleting_step singleUnderscore s4 ltac:(rule_deleting) S4) as (S5 & P5 & _).
  destruct (deleting_step backtick s5 ltac:(rule_deleting) S5) as (S6 & P6 & _).
  destruct (deleting_step heading3 s6 ltac:(rule_deleting) S6) as (S7 & P7 & _).
  destruct (deleting_step heading2 s7 ltac:(rule_deleting) S7) as (S8 & P8 & _).
  destruct (deleting_step heading1 s8 ltac:(rule_deleting) S8) as (_ & P9 & _).
  pose proof (matchWrapped_single_establishes star s2 eq_refl) as A3.
  pose proof (matchWrapped_single_establishes underscore s4 eq_refl) as A5.
  pose proof (matchWrapped_single_establishes tick s5 eq_refl) as A6.
  repeat split.
  - apply P9, P8, P7, P6, P5, P4, A3.
  - apply P9, P8, P7, P6, A5.
  - apply P9, P8, P7, A6.
  - apply matchHeading_single_establishes.
Qed.


(** Without [#] in the input the heading rules do nothing, and the
    response chain is the display chain followed by the link rule. *)
Lemma cleanResponse_factors (x : JsString) :
  ~ In hash x -> cleanResponse x = gsub matchLink (cleanContent x).
Proof.
  intros H0. assert (S0 : safe x) by by right.
  unfold cleanResponse, cleanContent, applyRules, responseRules, displayRules.
  cbn [fold_left].
  set (s1 := gsub tripleStar x).
  set (s2 := gsub doubleStar s1).
  set (s3 := gsub singleStar s2).
  set (s4 := gsub doubleUnderscore s3).
  set (s5 := gsub singleUnderscore s4).
  destruct (deleting_step tripleStar x ltac:(rule_deleting) S0) as (S1 & _ & Q1).
  destruct (deleting_step doubleStar s1 ltac:(rule_deleting) S1) as (S2 & _ & Q2).
  destruct (deleting_step singleStar s2 ltac:(rule_deleting) S2) as (S3 & _ & Q3).
  destruct (deleting_step doubleUnderscore s3 ltac:(rule_deleting) S3) as (S4 & _ & Q4).
  destruct (deleting_step singleUnderscore s4 ltac:(rule_deleting) S4) as (S5 & _ & Q5).
  destruct (deleting_step backtick s5 ltac:(rule_deleting) S5) as (_ & _ & Q6).
  assert (H5 : ~ In hash s5) by apply Q5, Q4, Q3, Q2, Q1, H0.
  assert (H6 : ~ In hash (gsub backtick s5)) by apply Q6, H5.
  unfold heading3, heading2, heading1.
  rewrite !(gsub_noMatch (matchHeading _) s5) by by apply matchHeading_noMatch.
  rewrite !(gsub_noMatch (matchHeading _) (gsub backtick s5))
    by by apply matchHeading_noMatch.
  done.
Qed.



Lemma cleanResponse_no_hash (x : JsString) : ~ In hash (cleanResponse x).
Proof.
  unfold cleanResponse, applyRules, responseRules. cbn [fold_left].
  intros Hin.
  apply (lineSub_In _ _ hash (matchLink_lineSub _)) in Hin.
  apply (lineSub_In _ _ hash (matchWrapped_lineSub (lit "`") _ ltac:(done) eq_refl))
    in Hin.
  by apply matchHeading_single_establishes in Hin.
Qed.



(** C8, at an input on which the code and the claim disagree. The input
    holds no link form, yet the two sites give different texts: the
    response chain strips the heading prefixes before the inline-code
    wrapper, the display chain after it. *)
Theorem clean_up_sites_differ :
  let x := lit "#` `a" in
  hasMatch matchLink x = false
  /\ cleanContent x = lit "a"
  /\ cleanResponse x = lit " a"
  /\ cleanResponse x <> cleanContent x.
Proof. vm_compute. repeat split. discriminate. Qed.

(** *** Where the two sites agree *)

Lemma atMostOnePerLine_absent (c : N) (seen : bool) (s : JsString) :
  ~ In c s -> atMostOnePerLine c seen s = true.
Proof.
  revert seen. induction s as [|x s IH]; intros seen H; simpl; [done|].
  simpl in H. destruct (isLineTerminator x); [apply IH; tauto|].
  destruct (N.eqb_spec x c) as [->|_]; [tauto | apply IH; tauto].
Qed.

(** No rule adds a code unit. *)
Lemma matchHeading_In (k : nat) (c : N) (s : JsString) :
  In c (gsub (matchHeading (S k)) s) -> In c s.
Proof.
  apply (gsub_ind (matchHeading (S k)) (fun s out => In c out -> In c s)).
  - apply matchHeading_consuming.
  - done.
  - intros s' r rest H IH Hin. apply matchHeading_shape in H as (-> & ws & _ & ->).
    rewrite !in_app_iff. right. right. by apply IH.
  - intros x s' _ IH [->|Hin]; simpl; [by left | right; by apply IH].
Qed.

Lemma matchWrapped_In (d : JsString) (c : N) (s : JsString) :
  d <> [] -> oneLine d = true -> In c (gsub (matchWrapped d) s) -> In c s.
Proof.
  intros Hd Hl. apply lineSub_In. by apply matchWrapped_lineSub.
Qed.

Lemma backtick_absent (s : JsString) : ~ In tick s -> gsub backtick s = s.
Proof.
  intros H. apply gsub_noMatch.
  apply (matchWrapped_noMatch tick 0 s eq_refl).
  by apply atMostOnePerLine_absent.
Qed.

(** Without a backtick in the input the inline-code rule does nothing at
    either site, wherever it stands in the chain. *)
Lemma cleanResponse_factors_no_tick (x : JsString) :
  ~ In tick x -> cleanResponse x = gsub matchLink (cleanContent x).
Proof.
  intros H0.
  unfold cleanResponse, cleanContent, applyRules, responseRules, displayRules.
  cbn [fold_left].
  set (s5 := gsub singleUnderscore
               (gsub doubleUnderscore
                  (gsub singleStar (gsub doubleStar (gsub tripleStar x))))).
  assert (H5 : ~ In tick s5).
  { intros Hin. apply H0. unfold s5 in Hin.
    repeat (apply matchWrapped_In in Hin; [|done|done]). exact Hin. }
  rewrite (backtick_absent s5 H5). rewrite backtick_absent; [done|].
  intros Hin. apply H5. unfold heading1, heading2, heading3 in Hin.
  by apply matchHeading_In, matchHeading_In, matchHeading_In in Hin.
Qed.

Lemma cleanContent_In (c : N) (x : JsString) : In c (cleanContent x) -> In c x.
Proof.
  unfold cleanContent, applyRules, displayRules. cbn [fold_left].
  unfold heading1, heading2, heading3. intros Hin.
  apply matchHeading_In, matchHeading_In, matchHeading_In in Hin.
  repeat (apply matchWrapped_In in Hin; [|done|done]). exact Hin.
Qed.

(** On an input without [#], and on an input without backtick, the
    response chain is the display chain followed by the link rule; if the
    input has no [[] either, the two sites give the same output. *)
Lemma clean_up_sites_agree (x : JsString) :
  ~ In hash x \/ ~ In tick x ->
  cleanResponse x = gsub matchLink (cleanContent x)
  /\ (~ In openBracket x -> cleanResponse x = cleanContent x).
Proof.
  intros Hx.
  assert (Hf : cleanResponse x = gsub matchLink (cleanContent x)).
  { destruct Hx; [by apply cleanResponse_factors
                 | by apply cleanResponse_factors_no_tick]. }
  split; [exact Hf|].
  intros Hb. rewrite Hf. apply gsub_noMatch, matchLink_noMatch.
  intros Hin. apply Hb. by apply cleanContent_In.
Qed.

Example clean_up_sites_agree_on_headings :
  let x := lit "## **Neural networks** are _layered_." in
  cleanResponse x = cleanContent x.
Proof.
  apply (clean_up_sites_agree (lit "## **Neural networks** are _layered_."));
    [right|]; vm_compute; intros H; decompose [or] H; try discriminate; assumption.
Qed.

(** ** Facts about the block classifier *)

Lemma startsWith_cons (s p : JsString) (a : N) :
  startsWith s (a :: p) = true -> exists r, s = a :: r.
Proof.
  unfold startsWith. destruct s as [|c r]; cbn [stripPrefix]; [done|].
  destruct (N.eqb_spec a c) as [<-|]; [eauto | done].
Qed.

Lemma startsWith_bullet (s : JsString) :
  startsWith s [bulletGlyph] = true -> exists r, s = bulletGlyph :: r.
Proof. apply startsWith_cons. Qed.

(** The precedence of the four cases, on the trimmed line. *)
Lemma classifyLine_cases (line : JsString) :
  let t := trim line in
  (t = [] /\ classifyLine line = Spacer)
  \/ (t <> [] /\ matchesHeader t = true /\ classifyLine line = Header t)
  \/ (t <> [] /\ matchesHeader t = false /\ startsWith t [bulletGlyph] = true
      /\ classifyLine line = Bullet (trim (substring1 t)))
  \/ (t <> [] /\ matchesHeader t = false /\ startsWith t [bulletGlyph] = false
      /\ classifyLine line = Paragraph t).
Proof.
  unfold classifyLine. simpl. destruct (trim line) as [|c r] eqn:Ht; [by left|].
  right. destruct (matchesHeader (c :: r)) eqn:Hh; [by left|].
  right. destruct (startsWith (c :: r) [bulletGlyph]) eqn:Hb; [by left | by right].
Qed.

(** A header glyph at the start of a line does give a header. *)
Lemma opensWithHeaderGlyph_matchesHeader (s : JsString) :
  opensWithHeaderGlyph s = true -> matchesHeader s = true.
Proof.
  unfold opensWithHeaderGlyph. rewrite existsb_exists. intros (g & Hg & Hs).
  unfold headerGlyphs in Hg. simpl in Hg.
  decompose [or] Hg; try contradiction; subst g;
    match type of Hs with
    | startsWith _ (encodeCodePoint ?g) = true =>
        let e := eval vm_compute in (encodeCodePoint g) in
        change (encodeCodePoint g) with e in Hs
    end;
    apply startsWith_cons in Hs as [r ->]; reflexivity.
Qed.

Lemma classifyLine_restore (line : JsString) :
  exists ws,
    forallb isSpace ws = true
    /\ (marker (classifyLine line) = [] -> ws = [])
    /\ trim line = marker (classifyLine line) ++ ws ++ content (classifyLine line).
Proof.
  pose proof (trim_not_padded line) as Hpad.
  destruct (classifyLine_cases line) as [[Ht ->] | [(_ & _ & ->) | [(_ & _ & Hb & ->) | (_ & _ & _ & ->)]]];
    simpl; try (exists []; by rewrite ?Ht).
  apply startsWith_bullet in Hb as [r Hr]. rewrite Hr in *. simpl.
  destruct (dropWhile_split isSpace r) as (ws & Hws & Hsplit).
  exists ws. split; [exact Hws|]. split; [done|]. f_equal.
  unfold trim, trimStart. rewrite trimEnd_id; [exact Hsplit|].
  destruct (dropWhile isSpace r) as [|c u] eqn:Hu; [done|].
  apply orb_false_elim in Hpad as [_ Hlast].
  rewrite Hsplit in Hlast.
  change (bulletGlyph :: ws ++ c :: u) with ((bulletGlyph :: ws) ++ c :: u) in Hlast.
  by rewrite headSpace_rev_app in Hlast.
Qed.

Lemma classifyLine_not_padded (line : JsString) :
  padded (content (classifyLine line)) = false.
Proof.
  destruct (classifyLine_cases line) as [[_ ->] | [(_ & _ & ->) | [(_ & _ & _ & ->) | (_ & _ & _ & ->)]]];
    simpl; try done; apply trim_not_padded.
Qed.

(** C4, at a line the code and the claim disagree on. A line opening with
    the grinning-face emoji, which is none of the five header glyphs, is
    classified as a header: the character class holds the surrogate halves
    of the glyphs, and the emoji shares its first half with three of them. *)
Theorem classifyLine_other_emoji_is_header :
  let line := encodeCodePoint 0x1F600 ++ lit " hi" in
  opensWithHeaderGlyph line = false
  /\ startsWith line [bulletGlyph] = false
  /\ classifyLine line = Header line.
Proof. vm_compute. done. Qed.

(** C5, counterexample. The contents of the blocks of a bullet line do not
    give back its trimmed text: the glyph is not part of the content. *)
Lemma FormattedNotesDisplay_bullet_counterexample :
  let text := bulletGlyph :: lit " a" in
  blockText (FormattedNotesDisplay text) <> trimLines (cleanContent text).
Proof. vm_compute. discriminate. Qed.

(** C5 (as amended). One block per line of the cleaned text, in line
    order; the trimmed line is the block's content, except that for a
    bullet it is the glyph, then white space, then the content. *)
Theorem FormattedNotesDisplay_lines (text : JsString) :
  let lines := split_lf (cleanContent text) in
  let blocks := FormattedNotesDisplay text in
  length blocks = length lines
  /\ forall (i : nat) (line : JsString),
       nth_error lines i = Some line ->
       exists b ws,
         nth_error blocks i = Some b
         /\ b = classifyLine line
         /\ forallb isSpace ws = true
         /\ (marker b = [] -> ws = [])
         /\ trim line = marker b ++ ws ++ content b.
Proof.
  simpl. unfold FormattedNotesDisplay, classify. split; [apply length_map|].
  intros i line Hline.
  destruct (classifyLine_restore line) as (ws & Hws & Hm & Ht).
  exists (classifyLine line), ws. split; [|done].
  by apply map_nth_error.
Qed.

(** C10. No block handed to the renderer has content with white space at
    its start or at its end. *)
Theorem FormattedNotesDisplay_contents_trimmed (text : JsString) :
  Forall (fun b => padded (content b) = false) (FormattedNotesDisplay text).
Proof.
  unfold FormattedNotesDisplay, classify. apply List.Forall_forall.
  intros b Hb. apply in_map_iff in Hb as (line & <- & _).
  apply classifyLine_not_padded.
Qed.

(** ** Facts about the extractor *)

Section ExtractorFacts.

Variable Buffer : Type.
Variable toStringUtf8 : Buffer -> Completion JsString.
Variable extname : JsString -> JsString.
Variable toLowerCase : JsString -> JsString.
Variable pdfParse : Buffer -> Completion PdfData.
Variable extractRawText : Buffer -> Completion MammothResult.

Local Abbreviation sniffText := (sniffText Buffer toStringUtf8).
Local Abbreviation extractTextFromPDF := (extractTextFromPDF Buffer pdfParse).
Local Abbreviation extractTextFromWord := (extractTextFromWord Buffer extractRawText).
Local Abbreviation extractTextFromFile :=
  (extractTextFromFile Buffer toStringUtf8 extname toLowerCase pdfParse extractRawText).

Lemma messageOf_newError (msg : JsString) : messageOf (newError msg) = msg.
Proof. unfold messageOf, newError. by rewrite lookup_singleton_eq. Qed.

Lemma strictEq_true (a b : JsString) : a = b -> strictEq a b = true.
Proof. intros ->. unfold strictEq. by apply bool_decide_eq_true. Qed.

Lemma strictEq_false (a b : JsString) : a <> b -> strictEq a b = false.
Proof. intros H. unfold strictEq. by apply bool_decide_eq_false. Qed.

(** Comparisons between two literals of the source are evaluated. *)
Ltac literals :=
  repeat match goal with
         | |- context [strictEq (lit ?a) (lit ?b)] =>
             let v := eval vm_compute in (strictEq (lit a) (lit b)) in
             change (strictEq (lit a) (lit b)) with v
         | |- context [mimeIs (Some ?a) ?b] =>
             let v := eval vm_compute in (mimeIs (Some a) b) in
             change (mimeIs (Some a) b) with v
         end;
  cbn [orb andb].

Lemma mimeIs_false (mimetype : option JsString) (k : JsString) :
  mimetype <> Some k -> mimeIs mimetype k = false.
Proof.
  destruct mimetype as [m|]; simpl; [|done].
  intros H. apply strictEq_false. congruence.
Qed.

Lemma unknown_mime (mimetype : option JsString) :
  ~ In mimetype (map Some knownMimes) ->
  mimeIs mimetype mimeText = false /\ mimeIs mimetype mimePdf = false
  /\ mimeIs mimetype mimeDocx = false /\ mimeIs mimetype mimeDoc = false.
Proof.
  intros H. repeat split; apply mimeIs_false; intros ->; apply H; simpl; tauto.
Qed.

Lemma unknown_ext (ext : JsString) :
  ~ In ext recognizedExts ->
  strictEq ext (lit ".txt") = false /\ strictEq ext (lit ".md") = false
  /\ strictEq ext (lit ".csv") = false /\ strictEq ext (lit ".pdf") = false
  /\ strictEq ext (lit ".docx") = false /\ strictEq ext (lit ".doc") = false.
Proof.
  intros H. repeat split; apply strictEq_false; intros ->; apply H; simpl; tauto.
Qed.

Lemma sniffText_Some (buffer : Buffer) (t : JsString) :
  sniffText buffer = Some t <-> toStringUtf8 buffer = Return t /\ plausibleText t.
Proof.
  unfold sniffText, plausibleText. destruct (toStringUtf8 buffer) as [u|e].
  - destruct (N.ltb_spec 0 (N.of_nat (length u))) as [Hlo|Hlo];
      destruct (N.ltb_spec (N.of_nat (length u)) 1000000) as [Hhi|Hhi]; simpl.
    + split; [intros [= ->]; auto | intros [[= ->] _]; auto].
    + split; [done | intros [[= ->] [_ ?]]; lia].
    + split; [done | intros [[= ->] [? _]]; lia].
    + split; [done | intros [[= ->] [? _]]; lia].
  - split; [done | intros [? _]; done].
Qed.

(** The PDF extractor in closed form. *)
Lemma extractTextFromPDF_value (buffer : Buffer) :
  extractTextFromPDF buffer =
    Return (match pdfParse buffer with
            | Return data => orElse (trim (text data)) pdfEmpty
            | Throw _ => pdfFailed
            end).
Proof.
  unfold extractTextFromPDF, safePdfParse. by destruct (pdfParse buffer).
Qed.

Lemma surfaced_extractTextFromPDF (buffer : Buffer) :
  surfaced (extractTextFromPDF buffer) = extractTextFromPDF buffer.
Proof. by rewrite extractTextFromPDF_value. Qed.

(** C2. The PDF extractor returns for every buffer: the fixed degraded
    placeholder when the reader fails, and when the reader succeeds the
    trimmed text, or the no-text placeholder if that is empty. *)
Theorem extractTextFromPDF_never_throws (buffer : Buffer) :
  exists t : JsString,
    extractTextFromPDF buffer = Return t
    /\ (forall e, pdfParse buffer = Throw e -> t = pdfFailed)
    /\ (forall data, pdfParse buffer = Return data ->
          (trim (text data) = [] -> t = pdfEmpty)
          /\ (trim (text data) <> [] -> t = trim (text data))).
Proof.
  rewrite extractTextFromPDF_value. eexists. split; [reflexivity|].
  destruct (pdfParse buffer) as [data|e].
  - split; [done|]. intros d [= <-].
    destruct (trim (text data)); simpl; split; congruence.
  - repeat split; done.
Qed.

(** C6. A failing Word reader makes the Word extractor fail with the
    reader's message embedded after a fixed prefix; a successful reader
    gives the trimmed text, or the placeholder if that is empty. *)
Theorem extractTextFromWord_propagates (buffer : Buffer) :
  (forall e, extractRawText buffer = Throw e ->
     exists err, extractTextFromWord buffer = Throw err
                 /\ messageOf err = wordFailed ++ messageOf e)
  /\ (forall result, extractRawText buffer = Return result ->
       (trim (value result) = [] -> extractTextFromWord buffer = Return wordEmpty)
       /\ (trim (value result) <> [] ->
            extractTextFromWord buffer = Return (trim (value result)))).
Proof.
  unfold extractTextFromWord. split.
  - intros e ->. simpl. eexists. split; [done|]. apply messageOf_newError.
  - intros result ->. simpl.
    destruct (trim (value result)); simpl; split; congruence.
Qed.

(** C7. Dispatch order: a known declared type selects its leaf extractor
    whatever the file name; otherwise a recognized lower-cased extension
    selects the extractor it implies. *)
Theorem extractTextFromFile_dispatch
    (buffer : Buffer) (mimetype : option JsString) (filename : JsString) :
  (mimetype = Some mimeText ->
     extractTextFromFile buffer mimetype filename = surfaced (toStringUtf8 buffer))
  /\ (mimetype = Some mimePdf ->
      extractTextFromFile buffer mimetype filename = extractTextFromPDF buffer)
  /\ (mimetype = Some mimeDocx \/ mimetype = Some mimeDoc ->
      extractTextFromFile buffer mimetype filename
      = surfaced (extractTextFromWord buffer))
  /\ (~ In mimetype (map Some knownMimes) ->
      let ext := toLowerCase (extname filename) in
      (In ext textExts ->
         extractTextFromFile buffer mimetype filename = surfaced (toStringUtf8 buffer))
      /\ (ext = lit ".pdf" ->
          extractTextFromFile buffer mimetype filename = extractTextFromPDF buffer)
      /\ (In ext wordExts ->
          extractTextFromFile buffer mimetype filename
          = surfaced (extractTextFromWord buffer))).
Proof.
  pose proof (surfaced_extractTextFromPDF buffer) as Hpdf.
  unfold extractTextFromFile. fold (surfaced). repeat split.
  - intros ->. by literals.
  - intros ->. literals. exact Hpdf.
  - intros [-> | ->]; by literals.
  - intros Hin. destruct (unknown_mime _ H) as (-> & -> & -> & ->). simpl.
    destruct Hin as [<- | [<- | [<- | []]]]; by literals.
  - intros Hext. destruct (unknown_mime _ H) as (-> & -> & -> & ->). simpl.
    rewrite Hext. literals. exact Hpdf.
  - intros Hin. destruct (unknown_mime _ H) as (-> & -> & -> & ->). simpl.
    destruct Hin as [<- | [<- | []]]; by literals.
Qed.

(** C3. With neither a known declared type nor a recognized extension,
    extraction returns the decoded string exactly when decoding gives a
    string of more than 0 and fewer than 1,000,000 code units; in every
    other case it throws the unsupported-type error, whose message names
    the declared type ([unknown] when it is absent or empty) and the
    lower-cased extension ([no extension] when it is empty). *)
Theorem extractTextFromFile_sniff
    (buffer : Buffer) (mimetype : option JsString) (filename : JsString) :
  ~ In mimetype (map Some knownMimes) ->
  ~ In (toLowerCase (extname filename)) recognizedExts ->
  (forall t, extractTextFromFile buffer mimetype filename = Return t
             <-> toStringUtf8 buffer = Return t /\ plausibleText t)
  /\ ((forall t, ~ (toStringUtf8 buffer = Return t /\ plausibleText t)) ->
      extractTextFromFile buffer mimetype filename
      = Throw (newError
          (lit "Failed to extract text from file: Unsupported file type: "
           ++ match mimetype with
              | Some (c :: m) => c :: m
              | _ => lit "unknown"
              end
           ++ lit " ("
           ++ match toLowerCase (extname filename) with
              | c :: ext => c :: ext
              | [] => lit "no extension"
              end
           ++ lit "). Supported formats: PDF, Word (.docx, .doc), Text (.txt, .md, .csv)"))).
Proof.
  intros Hm He. unfold extractTextFromFile.
  destruct (unknown_mime _ Hm) as (-> & -> & -> & ->).
  destruct (unknown_ext _ He) as (-> & -> & -> & -> & -> & ->). simpl.
  destruct (sniffText buffer) as [u|] eqn:Hs; simpl.
  - apply sniffText_Some in Hs. split.
    + intros t. split.
      * intros [= <-]. exact Hs.
      * intros [Ht _]. destruct Hs as [Hu _]. congruence.
    + intros Hno. destruct (Hno u Hs).
  - split.
    + intros t. split; [done|]. intros Ht. apply sniffText_Some in Ht. congruence.
    + intros _. rewrite messageOf_newError. do 2 f_equal.
      unfold unsupportedMessage.
      destruct mimetype as [[|c m]|];
        destruct (toLowerCase (extname filename)) as [|c' ext]; reflexivity.
Qed.

(** C9 (as amended). Every failure the extractor surfaces is a plain
    error object carrying only a message: the fixed prefix followed by the
    unsupported-type message, or by the Word extractor's message (its own
    prefix and the reader's cause), or by the cause of a failed decode. *)
Theorem extractTextFromFile_failure_shape
    (buffer : Buffer) (mimetype : option JsString) (filename : JsString)
    (err : JsObject) :
  extractTextFromFile buffer mimetype filename = Throw err ->
  exists cause : JsString,
    err = newError (fileFailed ++ cause)
    /\ (cause = unsupportedMessage mimetype (toLowerCase (extname filename))
        \/ (exists e, extractRawText buffer = Throw e
                      /\ cause = wordFailed ++ messageOf e)
        \/ (exists e, toStringUtf8 buffer = Throw e /\ cause = messageOf e)).
Proof.
  assert (Hword : surfaced (extractTextFromWord buffer) = Throw err ->
    exists cause, err = newError (fileFailed ++ cause)
      /\ exists e, extractRawText buffer = Throw e
                   /\ cause = wordFailed ++ messageOf e).
  { unfold extractTextFromWord.
    destruct (extractRawText buffer) as [r|e]; simpl; [done|].
    intros [= <-]. rewrite messageOf_newError. eauto. }
  assert (Htext : surfaced (toStringUtf8 buffer) = Throw err ->
    exists cause, err = newError (fileFailed ++ cause)
      /\ exists e, toStringUtf8 buffer = Throw e /\ cause = messageOf e).
  { destruct (toStringUtf8 buffer) as [r|e]; simpl; [done|].
    intros [= <-]. eauto. }
  assert (Hp : surfaced (extractTextFromPDF buffer) = Throw err -> False).
  { by rewrite extractTextFromPDF_value. }
  unfold extractTextFromFile. fold surfaced.
  repeat match goal with
         | |- context [if ?b then _ else _] => destruct b
         end; intros Hthrow.
  all: try (destruct (Htext Hthrow) as (c & -> & Hc); exists c; by auto).
  all: try (destruct (Hword Hthrow) as (c & -> & Hc); exists c; by auto).
  all: try (destruct (Hp Hthrow)).
  destruct (sniffText buffer); simpl in Hthrow; [done|].
  injection Hthrow as <-. rewrite messageOf_newError. eauto.
Qed.

End ExtractorFacts.

Ltac not_listed :=
  let H := fresh in
  vm_compute; intros H; decompose [or] H; try discriminate; assumption.

Lemma extractTextFromPDF_never_throws_witness :
  extractTextFromPDF Standin.Buffer Standin.pdfCorrupt (lit "%PDF-1.4 garbage")
  = Return pdfFailed.
Proof.
  destruct (extractTextFromPDF_never_throws Standin.Buffer Standin.pdfCorrupt
              (lit "%PDF-1.4 garbage")) as (t & Hret & Hfail & _).
  rewrite Hret. f_equal. apply (Hfail (newError (lit "Invalid PDF structure"))).
  reflexivity.
Defined.

Lemma extractTextFromWord_propagates_witness :
  exists err,
    extractTextFromWord Standin.Buffer Standin.wordCorrupt (lit "PK garbage") = Throw err
    /\ messageOf err
       = lit "Failed to extract text from Word document: Can't find end of central directory".
Proof.
  destruct (extractTextFromWord_propagates Standin.Buffer Standin.wordCorrupt
              (lit "PK garbage")) as [Hfail _].
  destruct (Hfail (newError (lit "Can't find end of central directory")) eq_refl)
    as (err & Herr & Hmsg).
  exists err. split; [exact Herr|]. rewrite Hmsg. vm_compute. reflexivity.
Defined.

Lemma extractTextFromFile_dispatch_witness :
  extractTextFromFile Standin.Buffer Standin.toStringUtf8 Standin.extname
    Standin.toLowerCase Standin.pdfReads Standin.wordReads
    (lit "  scanned text ") (Some (lit "application/octet-stream")) (lit "NOTES.PDF")
  = extractTextFromPDF Standin.Buffer Standin.pdfReads (lit "  scanned text ").
Proof.
  destruct (extractTextFromFile_dispatch Standin.Buffer Standin.toStringUtf8
              Standin.extname Standin.toLowerCase Standin.pdfReads Standin.wordReads
              (lit "  scanned text ") (Some (lit "application/octet-stream"))
              (lit "NOTES.PDF")) as (_ & _ & _ & Hext).
  destruct Hext as (_ & Hpdf & _); [not_listed|].
  apply Hpdf. vm_compute. reflexivity.
Defined.

Lemma extractTextFromFile_sniff_witness :
  Standin.extract (lit "plain notes") (Some (lit "application/octet-stream"))
    (lit "notes.bin")
  = Return (lit "plain notes").
Proof.
  destruct (extractTextFromFile_sniff Standin.Buffer Standin.toStringUtf8
              Standin.extname Standin.toLowerCase Standin.pdfCorrupt Standin.wordCorrupt
              (lit "plain notes") (Some (lit "application/octet-stream"))
              (lit "notes.bin")) as [Hiff _].
  - not_listed.
  - not_listed.
  - apply Hiff. split; [reflexivity|]. unfold plausibleText. simpl. lia.
Defined.

(** C9, counterexample. A Word upload whose reader fails: the error object
    surfaced has no [errorKind] field at all, only a message. *)
Lemma extractTextFromFile_payload_counterexample :
  exists err : JsObject,
    Standin.extract (lit "PK garbage") (Some mimeDocx) (lit "notes.docx") = Throw err
    /\ messageOf err
       = lit "Failed to extract text from file: Failed to extract text from Word document: Can't find end of central directory"
    /\ ~ structuredPayload err.
Proof.
  eexists. split; [vm_compute; reflexivity|]. split; [vm_compute; reflexivity|].
  intros (kind & Hkind & _). vm_compute in Hkind. discriminate Hkind.
Qed.

Lemma extractTextFromFile_failure_shape_witness :
  exists cause : JsString,
    newError (fileFailed ++ unsupportedMessage None []) = newError (fileFailed ++ cause)
    /\ (cause = unsupportedMessage None (Standin.toLowerCase (Standin.extname (lit "upload")))
        \/ (exists e, Standin.wordCorrupt [] = Throw e
                      /\ cause = wordFailed ++ messageOf e)
        \/ (exists e, Standin.toStringUtf8 [] = Throw e /\ cause = messageOf e)).
Proof.
  apply (extractTextFromFile_failure_shape Standin.Buffer Standin.toStringUtf8
           Standin.extname Standin.toLowerCase Standin.pdfCorrupt Standin.wordCorrupt
           [] None (lit "upload")).
  vm_compute. reflexivity.
Defined.

(** ** Further facts about the clean-up chains *)

Lemma lineSub_sublist (a b : JsString) : lineSub a b -> sublist a b.
Proof. induction 1; by constructor. Qed.

(** The loop of a rule only deletes when each of its matches does. *)
Lemma gsub_sublist (m : Matcher) (s : JsString) :
  consuming m ->
  (forall s r rest, m s = Some (r, rest) -> sublist (r ++ rest) s) ->
  sublist (gsub m s) s.
Proof.
  intros Hc Hm. apply (gsub_ind m (fun s out => sublist out s)); [done|constructor| |].
  - intros s' r rest H IH. etransitivity; [|by apply Hm].
    by apply sublist_app.
  - intros c s' _ IH. by constructor.
Qed.

Lemma matchHeading_sublist (k : nat) (s : JsString) :
  sublist (gsub (matchHeading (S k)) s) s.
Proof.
  apply gsub_sublist; [apply matchHeading_consuming|].
  intros s' r rest H. apply matchHeading_shape in H as (-> & ws & _ & ->).
  simpl. apply sublist_cons. apply sublist_inserts_l, sublist_inserts_l. done.
Qed.

Lemma applyRules_sublist (rules : list Matcher) (s : JsString) :
  Forall (fun m => forall t, sublist (gsub m t) t) rules ->
  sublist (applyRules rules s) s.
Proof.
  unfold applyRules. intros H. revert s.
  induction H as [|m rules Hm _ IH]; intros s; simpl; [done|].
  etransitivity; [apply IH | apply Hm].
Qed.

Lemma displayRules_sublist :
  Forall (fun m => forall t, sublist (gsub m t) t) displayRules.
Proof.
  unfold displayRules. repeat apply Forall_cons_2; try apply Forall_nil_2;
    intros t;
    first [ apply matchHeading_sublist
          | apply lineSub_sublist, matchWrapped_lineSub; done ].
Qed.

Lemma responseRules_sublist :
  Forall (fun m => forall t, sublist (gsub m t) t) responseRules.
Proof.
  unfold responseRules. repeat apply Forall_cons_2; try apply Forall_nil_2;
    intros t;
    first [ apply matchHeading_sublist
          | apply lineSub_sublist, matchLink_lineSub
          | apply lineSub_sublist, matchWrapped_lineSub; done ].
Qed.

Lemma clean_up_only_deletes_display (x : JsString) : sublist (cleanContent x) x.
Proof. apply applyRules_sublist, displayRules_sublist. Qed.

Lemma clean_up_only_deletes_response (x : JsString) : sublist (cleanResponse x) x.
Proof. apply applyRules_sublist, responseRules_sublist. Qed.

(** X1. The chains only delete: the output is the input with some code units
    left out, none added and none moved. *)
Theorem clean_up_only_deletes (x : JsString) :
  sublist (cleanContent x) x /\ sublist (cleanResponse x) x.
Proof.
  split; [apply clean_up_only_deletes_display | apply clean_up_only_deletes_response].
Qed.

(** X2. What the user is shown is the response cleaned by the backend and
    cleaned again by the display component: after the two passes no marker
    pattern is left, whatever the response, and a further display pass
    changes nothing. *)
Theorem displayed_text_has_no_marker (response : JsString) :
  noMarkers (cleanContent (cleanResponse response)) = true
  /\ cleanContent (cleanContent (cleanResponse response))
     = cleanContent (cleanResponse response).
Proof.
  assert (Hsafe : safe (cleanResponse response))
    by (right; apply cleanResponse_no_hash).
  pose proof (cleanContent_clean _ Hsafe) as Hclean.
  split; [by apply clean_noMarkers | by apply clean_fixed].
Qed.

(** X3. Text without any of the five marker characters passes through both
    chains unchanged. *)
Theorem clean_up_keeps_plain_text (x : JsString) :
  (forall c, In c markerChars -> ~ In c x) ->
  cleanContent x = x /\ cleanResponse x = x.
Proof.
  intros H.
  assert (Hclean : clean x).
  { repeat split; try apply atMostOnePerLine_absent; apply H; simpl; tauto. }
  split; [by apply clean_fixed|].
  apply clean_response_fixed; [done|].
  apply matchLink_noMatch, H. simpl. tauto.
Qed.

Lemma clean_up_keeps_plain_text_witness :
  let x := lit "Gradient descent minimizes loss." in
  cleanContent x = x /\ cleanResponse x = x.
Proof.
  apply (clean_up_keeps_plain_text (lit "Gradient descent minimizes loss.")).
  intros c Hc. vm_compute in Hc. vm_compute. intros Hx.
  decompose [or] Hc; try contradiction; subst c;
    decompose [or] Hx; try discriminate; assumption.
Defined.

(** ** Lines *)

Lemma split_lf_nonempty (s : JsString) : split_lf s <> [].
Proof.
  induction s as [|c s IH]; simpl; [done|].
  destruct (c =? 10); [done|]. by destruct (split_lf s).
Qed.

Lemma split_lf_cons_length (c : N) (s : JsString) :
  length (split_lf (c :: s))
  = if c =? 0x0A then S (length (split_lf s)) else length (split_lf s).
Proof.
  simpl. destruct (c =? 10); [done|].
  pose proof (split_lf_nonempty s). by destruct (split_lf s).
Qed.

Lemma lineSub_lines (a b : JsString) :
  lineSub a b -> length (split_lf a) = length (split_lf b).
Proof.
  induction 1 as [|x a b _ IH|x a b Hx _ IH]; [done| |].
  - rewrite !split_lf_cons_length. destruct (x =? 10); lia.
  - rewrite split_lf_cons_length.
    destruct (N.eqb_spec x 10) as [->|_]; [done | exact IH].
Qed.

Lemma applyRules_lines (rules : list Matcher) (s : JsString) :
  Forall deleting rules -> safe s ->
  length (split_lf (applyRules rules s)) = length (split_lf s).
Proof.
  unfold applyRules. intros H. revert s.
  induction H as [|m rules Hm _ IH]; intros s Hs; simpl; [done|].
  rewrite IH.
  - apply lineSub_lines. by apply Hm.
  - apply (safe_lineSub (gsub m s) s); [by apply Hm | done].
Qed.

(** X4. On a single-line input, and on an input without [#], the display shows
    one block for every line of the raw input. *)
Theorem FormattedNotesDisplay_block_per_input_line (text : JsString) :
  oneLine text = true \/ ~ In hash text ->
  length (FormattedNotesDisplay text) = length (split_lf text).
Proof.
  intros Hs. unfold FormattedNotesDisplay, classify. rewrite length_map.
  apply applyRules_lines; [|exact Hs].
  unfold displayRules. repeat apply Forall_cons_2; try apply Forall_nil_2;
    rule_deleting.
Qed.

Lemma FormattedNotesDisplay_block_per_input_line_witness :
  length (FormattedNotesDisplay (lit "**a**" ++ 0x0A :: lit "_b_")) = 2%nat.
Proof.
  rewrite (FormattedNotesDisplay_block_per_input_line
             (lit "**a**" ++ 0x0A :: lit "_b_")).
  - reflexivity.
  - right. vm_compute. intros H. decompose [or] H; try discriminate; assumption.
Defined.

(** ** Further facts about [trim] and the block classifier *)

Lemma dropWhile_all (p : N -> bool) (s : JsString) :
  forallb p s = true -> dropWhile p s = [].
Proof.
  induction s as [|c s IH]; simpl; [done|].
  intros H. apply andb_true_iff in H as [-> H]. by apply IH.
Qed.

Lemma dropWhile_app (p : N -> bool) (a b : JsString) :
  dropWhile p (a ++ b)
  = if forallb p a then dropWhile p b else dropWhile p a ++ b.
Proof.
  induction a as [|c a IH]; simpl; [done|].
  destruct (p c); simpl; [exact IH | done].
Qed.

Lemma forallb_rev (p : N -> bool) (s : JsString) :
  forallb p (rev s) = forallb p s.
Proof.
  induction s as [|c s IH]; simpl; [done|].
  rewrite forallb_app, IH. simpl. rewrite andb_true_r. apply andb_comm.
Qed.

Lemma trim_nil_iff (s : JsString) : trim s = [] <-> forallb isSpace s = true.
Proof.
  unfold trim, trimEnd, trimStart. split.
  - intros H. apply (f_equal (@rev N)) in H. rewrite rev_involutive in H. simpl in H.
    destruct (dropWhile_split isSpace (rev (dropWhile isSpace s))) as (ws & Hws & Hs).
    rewrite H, app_nil_r in Hs.
    destruct (dropWhile_split isSpace s) as (ws' & Hws' & Hs').
    rewrite Hs', forallb_app, Hws'. simpl.
    rewrite <- forallb_rev, Hs. exact Hws.
  - intros H. by rewrite (dropWhile_all isSpace s H).
Qed.

Lemma blank_true (s : JsString) : blank s = true <-> forallb isSpace s = true.
Proof.
  rewrite <- trim_nil_iff. unfold blank. destruct (trim s); split; done.
Qed.

Lemma blank_false (s : JsString) (c : N) :
  In c s -> isSpace c = false -> blank s = false.
Proof.
  intros Hin Hc. destruct (blank s) eqn:Hb; [|done].
  apply blank_true in Hb. rewrite forallb_forall in Hb.
  specialize (Hb c Hin). congruence.
Qed.

Lemma trim_idempotent (s : JsString) : trim (trim s) = trim s.
Proof.
  pose proof (trim_not_padded s) as Hpad.
  apply orb_false_elim in Hpad as [Hhead Hlast].
  unfold trim at 1. unfold trimStart. rewrite dropWhile_id.
  - by apply trimEnd_id.
  - by destruct (trim s).
Qed.

Lemma blank_trim (s : JsString) : blank (trim s) = blank s.
Proof. unfold blank. by rewrite trim_idempotent. Qed.

Lemma trim_surrounded (ws1 ws2 s : JsString) :
  forallb isSpace ws1 = true -> forallb isSpace ws2 = true ->
  trim (ws1 ++ s ++ ws2) = trim s.
Proof.
  intros H1 H2. unfold trim, trimStart.
  rewrite dropWhile_app, H1, dropWhile_app.
  destruct (forallb isSpace s) eqn:Hs.
  - rewrite (dropWhile_all isSpace ws2 H2), (dropWhile_all isSpace s Hs). done.
  - unfold trimEnd. rewrite rev_app_distr, dropWhile_app, forallb_rev, H2. done.
Qed.

(** X5. Indentation and trailing white space do not change how a line is
    classified. *)
Theorem classifyLine_ignores_padding (ws1 ws2 line : JsString) :
  forallb isSpace ws1 = true -> forallb isSpace ws2 = true ->
  classifyLine (ws1 ++ line ++ ws2) = classifyLine line.
Proof.
  intros H1 H2. unfold classifyLine. cbv zeta. by rewrite trim_surrounded.
Qed.

Lemma classifyLine_ignores_padding_witness :
  classifyLine (lit "   " ++ (bulletGlyph :: lit " Gradient descent") ++ lit "  ")
  = classifyLine (bulletGlyph :: lit " Gradient descent").
Proof.
  apply (classifyLine_ignores_padding (lit "   ") (lit "  ")); reflexivity.
Defined.

(** X6. A line is shown as a spacer exactly when it holds white space only. *)
Theorem classifyLine_spacer_iff_blank (line : JsString) :
  classifyLine line = Spacer <-> forallb isSpace line = true.
Proof.
  rewrite <- trim_nil_iff.
  destruct (classifyLine_cases line)
    as [[Ht ->] | [(Ht & _ & ->) | [(Ht & _ & _ & ->) | (Ht & _ & _ & ->)]]];
    split; done.
Qed.

(** X7. A line that, once trimmed, opens with one of the five header glyphs is
    a header whose content is the whole trimmed line; a line that opens
    with the bullet glyph is a bullet, never a header. *)
Theorem classifyLine_glyph_lines (line : JsString) :
  (opensWithHeaderGlyph (trim line) = true -> classifyLine line = Header (trim line))
  /\ (startsWith (trim line) [bulletGlyph] = true ->
      classifyLine line = Bullet (trim (substring1 (trim line)))).
Proof.
  split.
  - intros H. pose proof (opensWithHeaderGlyph_matchesHeader _ H) as Hm.
    destruct (classifyLine_cases line)
      as [[Ht _] | [(_ & _ & ->) | [(_ & Hn & _) | (_ & Hn & _)]]];
      [|done|cbv zeta in Hn; congruence|cbv zeta in Hn; congruence].
    cbv zeta in Ht. rewrite Ht in Hm. done.
  - intros H. apply startsWith_bullet in H as Hr. destruct Hr as [r Hr].
    destruct (classifyLine_cases line)
      as [[Ht _] | [(_ & Hm & _) | [(_ & _ & _ & ->) | (_ & _ & Hn & _)]]];
      cbv zeta in *; [congruence| |done|congruence].
    rewrite Hr in Hm. vm_compute in Hm. done.
Qed.

Lemma classifyLine_glyph_lines_witness :
  classifyLine (lit "  " ++ encodeCodePoint 0x1F4DD ++ lit " SUMMARY")
  = Header (encodeCodePoint 0x1F4DD ++ lit " SUMMARY").
Proof.
  destruct (classifyLine_glyph_lines
              (lit "  " ++ encodeCodePoint 0x1F4DD ++ lit " SUMMARY")) as [Hh _].
  rewrite Hh; reflexivity.
Defined.

(** ** Facts about [simplifyNotes] *)

Lemma stripPrefix_app (p r : JsString) : stripPrefix p (p ++ r) = Some r.
Proof. induction p as [|a p IH]; simpl; [done|]. by rewrite N.eqb_refl. Qed.

Lemma includes_spec (s needle : JsString) :
  includes s needle = true <-> exists pre post, s = pre ++ needle ++ post.
Proof.
  split.
  - induction s as [|c s IH]; cbn [includes].
    + destruct (stripPrefix needle []) as [r|] eqn:Hr; [|done].
      intros _. apply stripPrefix_sound in Hr. by exists [], r.
    + destruct (stripPrefix needle (c :: s)) as [r|] eqn:Hr.
      * intros _. apply stripPrefix_sound in Hr. by exists [], r.
      * intros H. destruct (IH H) as (pre & post & ->). by exists (c :: pre), post.
  - intros (pre & post & ->). induction pre as [|c pre IH].
    + simpl. destruct (needle ++ post) eqn:E; cbn [includes];
        rewrite <- E, stripPrefix_app; done.
    + cbn [includes app]. by destruct (stripPrefix needle (c :: pre ++ needle ++ post)).
Qed.

Lemma processText_short (text : JsString) :
  N.of_nat (length text) <= maxLength -> processText text = text.
Proof.
  intros H. unfold processText.
  destruct (N.ltb_spec maxLength (N.of_nat (length text))); [lia | done].
Qed.

Lemma processText_long (text : JsString) :
  maxLength < N.of_nat (length text) ->
  processText text = take (N.to_nat maxLength) text ++ lit "...".
Proof.
  intros H. unfold processText.
  destruct (N.ltb_spec maxLength (N.of_nat (length text))); [done | lia].
Qed.

(** The length of the template around the notes. *)
Lemma buildPrompt_length (notes : JsString) :
  N.of_nat (length (buildPrompt notes)) = 641 + N.of_nat (length notes).
Proof.
  unfold buildPrompt. rewrite !length_app.
  change (length (join_lf promptLines)) with (N.to_nat 638).
  change (length (10 :: lit "  ")) with 3%nat. lia.
Qed.

Section ServiceFacts.

Variable generateContent : JsString -> Completion JsString.
Variable typeError : JsObject.

Local Abbreviation simplifyNotes := (simplifyNotes generateContent typeError).
Local Abbreviation aiFailure := (aiFailure typeError).
Local Abbreviation processTextRoute := (processTextRoute generateContent typeError).

Lemma simplifyNotes_blank (text : JsString) :
  blank text = true -> simplifyNotes text = ([], Throw (newError noTextProvided)).
Proof. intros H. unfold simplifyNotes. by rewrite H. Qed.

Lemma simplifyNotes_not_blank (text : JsString) :
  blank text = false ->
  simplifyNotes text
  = ([buildPrompt (processText text)],
     match generateContent (buildPrompt (processText text)) with
     | Return response =>
         if blank response then Throw (newError (aiFailed ++ emptyResponse))
         else Return (cleanResponse response)
     | Throw error => aiFailure error
     end).
Proof.
  intros H. unfold simplifyNotes. rewrite H. f_equal.
  destruct (generateContent _) as [response|error]; simpl; [|done].
  destruct (blank response); [|done]. simpl.
  unfold aiFailure, newError. by rewrite lookup_singleton_eq.
Qed.

(** X8. The prompt sent to the model is the template around the notes, the
    notes being cut after 100,000 code units: a prompt is at most 100,644
    code units long, holds the text unchanged when that is at most 100,000
    code units long, and otherwise its first 100,000 code units and three
    dots. *)
Theorem simplifyNotes_prompt_bounded (text prompt : JsString) :
  In prompt (fst (simplifyNotes text)) ->
  N.of_nat (length prompt) <= 100644
  /\ (N.of_nat (length text) <= 100000 -> prompt = buildPrompt text)
  /\ (100000 < N.of_nat (length text) ->
      prompt = buildPrompt (take (N.to_nat 100000) text ++ lit "...")).
Proof.
  destruct (blank text) eqn:Hb.
  - rewrite simplifyNotes_blank by done. done.
  - rewrite simplifyNotes_not_blank by done. cbn [fst In]. intros [<-|[]].
    rewrite buildPrompt_length. repeat split.
    + destruct (N.ltb_spec maxLength (N.of_nat (length text))) as [Hl|Hl].
      * rewrite processText_long by done.
        rewrite length_app, length_take.
        change (length (lit "...")) with 3%nat. unfold maxLength in *. lia.
      * rewrite processText_short by done. unfold maxLength in *. lia.
    + intros H. by rewrite processText_short.
    + intros H. by rewrite processText_long.
Qed.

(** X9. What follows the first 100,000 code units never reaches the model: two
    texts that are both longer and agree up to there are answered alike. *)
Theorem simplifyNotes_ignores_tail (a b : JsString) :
  100000 < N.of_nat (length a) -> 100000 < N.of_nat (length b) ->
  take (N.to_nat 100000) a = take (N.to_nat 100000) b ->
  blank a = false -> blank b = false ->
  simplifyNotes a = simplifyNotes b.
Proof.
  intros Ha Hb Hab Hna Hnb.
  rewrite !simplifyNotes_not_blank, !processText_long by done.
  unfold maxLength. by rewrite Hab.
Qed.

(** X10. A result of [simplifyNotes] is the cleaned reply of the model to the
    one prompt sent: the reply with code units deleted, and without [#]. *)
Theorem simplifyNotes_success (text notes : JsString) :
  snd (simplifyNotes text) = Return notes ->
  exists response,
    blank text = false
    /\ fst (simplifyNotes text) = [buildPrompt (processText text)]
    /\ generateContent (buildPrompt (processText text)) = Return response
    /\ blank response = false
    /\ notes = cleanResponse response
    /\ sublist notes response
    /\ ~ In hash notes.
Proof.
  destruct (blank text) eqn:Hb.
  - by rewrite simplifyNotes_blank.
  - rewrite simplifyNotes_not_blank by done. cbn [fst snd].
    destruct (generateContent _) as [response|error] eqn:Hg.
    + destruct (blank response) eqn:Hr; [done|]. intros [= <-].
      exists response. repeat split; try done.
      * apply clean_up_only_deletes_response.
      * apply cleanResponse_no_hash.
    + unfold aiFailure.
      destruct (error !! "message"%string); [|done].
      repeat match goal with |- context [if ?c then _ else _] => destruct c end; done.
Qed.

(** X11. Every failure of [simplifyNotes] is one of: the rejection of a blank
    text; one of three fixed messages, chosen by whether the model's error
    message mentions [API_KEY], else [quota], else [timeout]; the model's
    message after a fixed prefix; the same prefix before the complaint
    about a blank reply; or the engine's own error when the value thrown
    has no message. *)
Theorem simplifyNotes_failure (text : JsString) (err : JsObject) :
  snd (simplifyNotes text) = Throw err ->
  (blank text = true /\ err = newError noTextProvided)
  \/ (blank text = false
      /\ exists reply, generateContent (buildPrompt (processText text)) = Return reply
                       /\ blank reply = true
                       /\ err = newError (aiFailed ++ emptyResponse))
  \/ (blank text = false
      /\ exists cause, generateContent (buildPrompt (processText text)) = Throw cause
           /\ match cause !! "message"%string with
              | None => err = typeError
              | Some m =>
                  if includes m (lit "API_KEY") then err = newError invalidApiKey
                  else if includes m (lit "quota") then err = newError quotaExceeded
                  else if includes m (lit "timeout") then err = newError timedOut
                  else err = newError (aiFailed ++ m)
              end).
Proof.
  destruct (blank text) eqn:Hb.
  - rewrite simplifyNotes_blank by done. simpl. intros [= <-]. by left.
  - rewrite simplifyNotes_not_blank by done. cbn [fst snd]. intros H. right.
    destruct (generateContent _) as [reply|cause] eqn:Hg.
    + destruct (blank reply) eqn:Hr; [|done]. injection H as <-. left. eauto.
    + right. split; [done|]. exists cause. split; [done|].
      unfold aiFailure in H.
      destruct (cause !! "message"%string) as [m|]; [|congruence].
      repeat match goal with
             | |- context [if ?c then _ else _] => destruct c
             end; congruence.
Qed.

End ServiceFacts.

(** ** Facts about the routes *)

Lemma blank_orElse (s placeholder : JsString) :
  blank placeholder = false -> blank (orElse (trim s) placeholder) = false.
Proof.
  intros H. destruct (trim s) as [|c r] eqn:Ht; simpl; [done|].
  rewrite <- Ht, blank_trim. unfold blank. by rewrite Ht.
Qed.

Lemma classic_rejected (text : option JsString) :
  rejectedText text \/ ~ rejectedText text.
Proof.
  destruct text as [t|]; simpl; [|tauto].
  destruct (blank t); [tauto|].
  destruct (N.le_gt_cases (N.of_nat (length t)) 200000); [right | tauto].
  intros [?|?]; [done | lia].
Qed.

Section RouteFacts.

Variable generateContent : JsString -> Completion JsString.
Variable typeError : JsObject.
Variable Buffer : Type.
Variable toStringUtf8 : Buffer -> Completion JsString.
Variable extname : JsString -> JsString.
Variable toLowerCase : JsString -> JsString.
Variable pdfParse : Buffer -> Completion PdfData.
Variable extractRawText : Buffer -> Completion MammothResult.

Local Abbreviation simplifyNotes := (simplifyNotes generateContent typeError).
Local Abbreviation processTextRoute := (processTextRoute generateContent typeError).
Local Abbreviation extractTextFromPDF := (extractTextFromPDF Buffer pdfParse).
Local Abbreviation extractTextFromWord := (extractTextFromWord Buffer extractRawText).
Local Abbreviation extractTextFromFile :=
  (extractTextFromFile Buffer toStringUtf8 extname toLowerCase pdfParse extractRawText).
Local Abbreviation uploadRoute :=
  (uploadRoute generateContent typeError Buffer toStringUtf8 extname toLowerCase
     pdfParse extractRawText).

Lemma aiFailure_throws (error : JsObject) :
  exists err, aiFailure typeError error = Throw err.
Proof.
  unfold aiFailure. destruct (error !! "message"%string); [|by eexists].
  repeat match goal with |- context [if ?c then _ else _] => destruct c end;
    by eexists.
Qed.

(** What [replyWith] makes of a call of [simplifyNotes] on a text that is
    not blank: one prompt sent, and either the cleaned reply with status
    200 or an error with status 500. *)
Lemma accepted_reply (n : N) (text : JsString) :
  blank text = false ->
  (exists response,
     generateContent (buildPrompt (processText text)) = Return response
     /\ blank response = false
     /\ replyWith n (simplifyNotes text)
        = ([buildPrompt (processText text)],
           {| status := 200;
              json := NotesJson (cleanResponse response) n
                        (N.of_nat (length (cleanResponse response))) |}))
  \/ (exists err,
        replyWith n (simplifyNotes text)
        = ([buildPrompt (processText text)], serverError err)).
Proof.
  intros Hb. rewrite (simplifyNotes_not_blank generateContent typeError) by done.
  destruct (generateContent _) as [response|error] eqn:Hg.
  - destruct (blank response) eqn:Hr; [right | left]; eauto.
  - right. destruct (aiFailure_throws error) as [err ->]. eauto.
Qed.

(** The route on a text it accepts. *)
Lemma processTextRoute_accepted (t : JsString) :
  blank t = false -> N.of_nat (length t) <= 200000 ->
  processTextRoute (Some t) = replyWith (N.of_nat (length t)) (simplifyNotes t).
Proof.
  intros Hb Hl. unfold processTextRoute. rewrite Hb.
  destruct t as [|c t]; [done|].
  destruct (N.ltb_spec 200000 (N.of_nat (length (c :: t)))); [lia | done].
Qed.

Lemma processTextRoute_rejected (text : option JsString) :
  rejectedText text ->
  exists message, processTextRoute text = ([], badRequest message).
Proof.
  unfold processTextRoute. destruct text as [t|]; [|by eexists].
  destruct t as [|c t]; [by eexists|]. intros [Hb|Hl].
  - rewrite Hb. by eexists.
  - destruct (blank (c :: t)); [by eexists|].
    destruct (N.ltb_spec 200000 (N.of_nat (length (c :: t)))); [by eexists | lia].
Qed.

Lemma not_rejectedText (text : option JsString) :
  ~ rejectedText text ->
  exists t, text = Some t /\ blank t = false /\ N.of_nat (length t) <= 200000.
Proof.
  destruct text as [t|]; simpl; [|tauto]. intros H. exists t.
  split; [done|]. split.
  - destruct (blank t); [tauto | done].
  - destruct (N.le_gt_cases (N.of_nat (length t)) 200000); [done | tauto].
Qed.

(** The handler on a text of more than 100,000 and at most 200,000 code
    units: the model only sees the first 100,000 code units, while a
    successful reply reports the full length as [originalLength]. *)
Lemma processTextRoute_truncates (text : JsString) :
  100000 < N.of_nat (length text) -> N.of_nat (length text) <= 200000 ->
  blank text = false ->
  fst (processTextRoute (Some text))
  = [buildPrompt (take (N.to_nat 100000) text ++ lit "...")]
  /\ (status (snd (processTextRoute (Some text))) = 200 ->
      exists notes,
        json (snd (processTextRoute (Some text)))
        = NotesJson notes (N.of_nat (length text)) (N.of_nat (length notes))).
Proof.
  intros Hlo Hhi Hb. rewrite processTextRoute_accepted by done.
  destruct (accepted_reply (N.of_nat (length text)) text Hb)
    as [(response & _ & _ & ->) | (err & ->)];
    rewrite processText_long by done; (split; [done|]).
  - intros _. by eexists.
  - done.
Qed.

(** X14. A reply of [POST /api/process-text] with status 200 carries the model's
    reply cleaned by the response chain, free of [#], with its length and
    the length of the text received; any other reply carries an error. *)
Theorem processTextRoute_payload (text : option JsString) :
  (status (snd (processTextRoute text)) = 200 ->
     exists t response,
       text = Some t
       /\ generateContent (buildPrompt (processText t)) = Return response
       /\ json (snd (processTextRoute text))
          = NotesJson (cleanResponse response) (N.of_nat (length t))
              (N.of_nat (length (cleanResponse response)))
       /\ ~ In hash (cleanResponse response))
  /\ (status (snd (processTextRoute text)) <> 200 ->
      exists e, json (snd (processTextRoute text)) = ErrorJson e).
Proof.
  destruct (classic_rejected text) as [Hr|Hr].
  - destruct (processTextRoute_rejected text Hr) as [m ->]. split; [done|].
    intros _. by eexists.
  - apply not_rejectedText in Hr as (t & -> & Hb & Hl).
    rewrite processTextRoute_accepted by done.
    destruct (accepted_reply (N.of_nat (length t)) t Hb)
      as [(response & Hg & _ & ->) | (err & ->)]; split; try done.
    + intros _. exists t, response. repeat split; try done.
      apply cleanResponse_no_hash.
    + intros _. by eexists.
Qed.

(** *** Uploads *)

Lemma extractTextFromPDF_not_blank (buffer : Buffer) (t : JsString) :
  extractTextFromPDF buffer = Return t -> blank t = false.
Proof.
  rewrite extractTextFromPDF_value. intros [= <-].
  destruct (pdfParse buffer) as [data|e]; [|done]. by apply blank_orElse.
Qed.

Lemma extractTextFromWord_not_blank (buffer : Buffer) (t : JsString) :
  surfaced (extractTextFromWord buffer) = Return t -> blank t = false.
Proof.
  unfold extractTextFromWord. destruct (extractRawText buffer) as [r|e]; [|done].
  simpl. intros [= <-]. by apply blank_orElse.
Qed.

Lemma surfaced_Return (c : Completion JsString) (t : JsString) :
  surfaced c = Return t -> c = Return t.
Proof. by destruct c. Qed.

(** Only a plain decoding of the bytes can give blank text. *)
Lemma extractTextFromFile_blank
    (buffer : Buffer) (mimetype : option JsString) (filename t : JsString) :
  extractTextFromFile buffer mimetype filename = Return t ->
  blank t = true ->
  toStringUtf8 buffer = Return t.
Proof.
  unfold extractTextFromFile. fold surfaced.
  repeat match goal with
         | |- context [if ?b then _ else _] => destruct b
         end; intros H Hb.
  all: try (by apply surfaced_Return).
  all: try (apply surfaced_Return, extractTextFromPDF_not_blank in H; congruence).
  all: try (apply extractTextFromWord_not_blank in H; congruence).
  destruct (sniffText Buffer toStringUtf8 buffer) as [u|] eqn:Hs; [|done].
  simpl in H. injection H as <-. by apply sniffText_Some in Hs as [Hs _].
Qed.

(** Where a PDF is dispatched: by its declared type, or by its extension
    when the declared type is not a known one. *)
Lemma extractTextFromFile_pdf
    (buffer : Buffer) (mimetype : option JsString) (filename : JsString) :
  mimetype = Some mimePdf
  \/ (~ In mimetype (map Some knownMimes)
      /\ toLowerCase (extname filename) = lit ".pdf") ->
  extractTextFromFile buffer mimetype filename = extractTextFromPDF buffer.
Proof.
  pose proof (surfaced_extractTextFromPDF Buffer pdfParse buffer) as Hpdf.
  unfold extractTextFromFile. fold surfaced. intros [-> | [Hm He]].
  - by vm_compute (mimeIs (Some mimePdf) mimeText);
      vm_compute (mimeIs (Some mimePdf) mimePdf).
  - destruct (unknown_mime _ Hm) as (-> & -> & -> & ->). rewrite He.
    by vm_compute (strictEq (lit ".pdf") _).
Qed.

(** A file that goes to the PDF or to the Word reader, by its declared type
    or, when that is not a known one, by its extension, never gives blank
    text: the readers put a placeholder where they found none. *)
Lemma extractTextFromFile_reader_not_blank
    (buffer : Buffer) (mimetype : option JsString) (filename t : JsString) :
  In mimetype (map Some [mimePdf; mimeDocx; mimeDoc])
  \/ (~ In mimetype (map Some knownMimes)
      /\ In (toLowerCase (extname filename)) (lit ".pdf" :: wordExts)) ->
  extractTextFromFile buffer mimetype filename = Return t ->
  blank t = false.
Proof.
  unfold extractTextFromFile. fold surfaced. cbv zeta.
  intros [Hm | [Hm He]].
  - cbn [map In] in Hm. destruct Hm as [<- | [<- | [<- | []]]].
    + vm_compute (mimeIs (Some mimePdf) mimeText).
      vm_compute (mimeIs (Some mimePdf) mimePdf). cbv iota.
      intros H. by apply surfaced_Return, extractTextFromPDF_not_blank in H.
    + vm_compute (mimeIs (Some mimeDocx) mimeText).
      vm_compute (mimeIs (Some mimeDocx) mimePdf).
      vm_compute (mimeIs (Some mimeDocx) mimeDocx). cbn [orb]. cbv iota.
      apply extractTextFromWord_not_blank.
    + vm_compute (mimeIs (Some mimeDoc) mimeText).
      vm_compute (mimeIs (Some mimeDoc) mimePdf).
      vm_compute (mimeIs (Some mimeDoc) mimeDocx).
      vm_compute (mimeIs (Some mimeDoc) mimeDoc). cbn [orb]. cbv iota.
      apply extractTextFromWord_not_blank.
  - destruct (unknown_mime _ Hm) as (-> & -> & -> & ->). cbn [orb]. cbv iota.
    unfold wordExts in He. cbn [In] in He.
    destruct He as [<- | [<- | [<- | []]]].
    + vm_compute (strictEq (lit ".pdf") (lit ".txt")).
      vm_compute (strictEq (lit ".pdf") (lit ".md")).
      vm_compute (strictEq (lit ".pdf") (lit ".csv")).
      vm_compute (strictEq (lit ".pdf") (lit ".pdf")). cbn [orb]. cbv iota.
      intros H. by apply surfaced_Return, extractTextFromPDF_not_blank in H.
    + vm_compute (strictEq (lit ".docx") (lit ".txt")).
      vm_compute (strictEq (lit ".docx") (lit ".md")).
      vm_compute (strictEq (lit ".docx") (lit ".csv")).
      vm_compute (strictEq (lit ".docx") (lit ".pdf")).
      vm_compute (strictEq (lit ".docx") (lit ".docx")). cbn [orb]. cbv iota.
      apply extractTextFromWord_not_blank.
    + vm_compute (strictEq (lit ".doc") (lit ".txt")).
      vm_compute (strictEq (lit ".doc") (lit ".md")).
      vm_compute (strictEq (lit ".doc") (lit ".csv")).
      vm_compute (strictEq (lit ".doc") (lit ".pdf")).
      vm_compute (strictEq (lit ".doc") (lit ".docx")).
      vm_compute (strictEq (lit ".doc") (lit ".doc")). cbn [orb]. cbv iota.
      apply extractTextFromWord_not_blank.
Qed.

(** The handler on a PDF whose reader fails: the file is not turned down,
    the placeholder that reports the failure is what the model is asked to
    summarise. *)
Lemma uploadRoute_failed_pdf
    (file : Multer.File Buffer) (e : JsObject) :
  Multer.size file <> 0 ->
  Multer.mimetype file = Some mimePdf
  \/ (~ In (Multer.mimetype file) (map Some knownMimes)
      /\ toLowerCase (extname (Multer.originalname file)) = lit ".pdf") ->
  pdfParse (Multer.buffer file) = Throw e ->
  exists reply,
    uploadRoute (Some file) = ([buildPrompt pdfFailed], reply)
    /\ (status reply = 200 \/ status reply = 500).
Proof.
  intros Hsize Hpdf Hfail. unfold uploadRoute.
  apply N.eqb_neq in Hsize. rewrite Hsize.
  rewrite extractTextFromFile_pdf, extractTextFromPDF_value, Hfail by done.
  change (blank pdfFailed) with false. cbv iota.
  destruct (accepted_reply (N.of_nat (length pdfFailed)) pdfFailed eq_refl)
    as [(response & _ & _ & ->) | (err & ->)];
    change (processText pdfFailed) with pdfFailed; eexists; split; eauto.
Qed.

(** When the handler answers "No readable text found in the uploaded file":
    the text was decoded from the bytes as they are and is blank, and the
    file did not go to the PDF or to the Word reader, neither by its
    declared type nor by its extension. *)
Lemma uploadRoute_no_readable_text (file : option (Multer.File Buffer)) :
  snd (uploadRoute file) = noReadableText ->
  exists f t,
    file = Some f
    /\ toStringUtf8 (Multer.buffer f) = Return t /\ blank t = true
    /\ ~ In (Multer.mimetype f) (map Some [mimePdf; mimeDocx; mimeDoc])
    /\ (~ In (Multer.mimetype f) (map Some knownMimes) ->
        ~ In (toLowerCase (extname (Multer.originalname f))) (lit ".pdf" :: wordExts)).
Proof.
  unfold uploadRoute. destruct file as [f|]; [|done].
  destruct (Multer.size f =? 0); [done|].
  destruct (extractTextFromFile _ _ _) as [t|err] eqn:He; [|done].
  destruct (blank t) eqn:Hb.
  - intros _. exists f, t.
    split; [done|]. split; [by apply (extractTextFromFile_blank _ _ _ _ He)|].
    split; [done|].
    split.
    + intros Hr. apply (extractTextFromFile_reader_not_blank _ _ _ t) in He;
        [congruence | by left].
    + intros Hm Hr. apply (extractTextFromFile_reader_not_blank _ _ _ t) in He;
        [congruence | by right].
  - destruct (accepted_reply (N.of_nat (length t)) t Hb)
      as [(response & _ & _ & ->) | (err & ->)]; done.
Qed.


End RouteFacts.

(** ** The service and the routes on concrete requests *)

Lemma simplifyNotes_prompt_bounded_witness :
  N.of_nat (length (buildPrompt (lit "Machine learning uses data."))) <= 100644.
Proof.
  apply (simplifyNotes_prompt_bounded
           (StandinModel.replies (lit "ok")) StandinModel.typeError
           (lit "Machine learning uses data.")
           (buildPrompt (lit "Machine learning uses data."))).
  vm_compute. left. reflexivity.
Defined.

Lemma simplifyNotes_ignores_tail_witness :
  let head := 0x78 :: repeat 0x61 (N.to_nat 100000) in
  simplifyNotes (StandinModel.replies (lit "ok")) StandinModel.typeError
    (head ++ lit "b")
  = simplifyNotes (StandinModel.replies (lit "ok")) StandinModel.typeError
      (head ++ lit "cd").
Proof.
  intros head.
  assert (Hlen : length head = S (N.to_nat 100000)).
  { unfold head. cbn [length]. by rewrite repeat_length. }
  apply (simplifyNotes_ignores_tail
           (StandinModel.replies (lit "ok")) StandinModel.typeError).
  - rewrite length_app, Hlen. lia.
  - rewrite length_app, Hlen. lia.
  - rewrite !take_app_le by (rewrite Hlen; lia). reflexivity.
  - apply (blank_false _ 0x78); [left; reflexivity | reflexivity].
  - apply (blank_false _ 0x78); [left; reflexivity | reflexivity].
Defined.

Lemma simplifyNotes_success_witness :
  exists response,
    StandinModel.replies (lit "**Key** idea") (buildPrompt (lit "notes"))
    = Return response
    /\ lit "Key idea" = cleanResponse response.
Proof.
  destruct (simplifyNotes_success
              (StandinModel.replies (lit "**Key** idea")) StandinModel.typeError
              (lit "notes") (lit "Key idea"))
    as (response & _ & _ & Hg & _ & Hn & _).
  - vm_compute. reflexivity.
  - exists response. split; [exact Hg | exact Hn].
Defined.

Lemma simplifyNotes_failure_witness :
  snd (simplifyNotes
         (StandinModel.fails (lit "429: quota exhausted for this API_KEY"))
         StandinModel.typeError (lit "notes"))
  = Throw (newError invalidApiKey).
Proof.
  destruct (simplifyNotes_failure
              (StandinModel.fails (lit "429: quota exhausted for this API_KEY"))
              StandinModel.typeError (lit "notes") (newError invalidApiKey))
    as [[Hb _] | [(_ & reply & Hg & _) | (_ & cause & Hg & _)]].
  - vm_compute. reflexivity.
  - vm_compute in Hb. discriminate Hb.
  - vm_compute in Hg. discriminate Hg.
  - vm_compute. reflexivity.
Defined.

(** ** Facts about the front end *)

Lemma orElse_nonempty (a b : JsString) : b <> [] -> orElse a b <> [].
Proof. by destruct a. Qed.

Lemma processError_nonempty (err : Axios.Error) : processError err <> [].
Proof.
  unfold processError.
  repeat match goal with |- context [if ?c then _ else _] => destruct c end;
    try done; by apply orElse_nonempty.
Qed.

(** X18. A selected file is always kept, whatever its type: an unlisted type and
    extension only bring a warning, and nothing else of the state changes. *)
Theorem handleFileSelect_never_rejects
    (toLowerCase : JsString -> JsString) (f : Browser.File) (st : App.State) :
  let st' := handleFileSelect toLowerCase (Some f) st in
  App.file st' = Some f
  /\ (App.error st' = [] \/ App.error st' = notFullySupported)
  /\ (arrayIncludes supportedTypes (Browser.type f) = true -> App.error st' = [])
  /\ App.textInput st' = App.textInput st
  /\ App.results st' = App.results st
  /\ App.loading st' = App.loading st
  /\ App.inputMode st' = App.inputMode st.
Proof.
  unfold handleFileSelect. cbv zeta.
  destruct (arrayIncludes supportedTypes (Browser.type f)); cbn [orb].
  - simpl. repeat split; auto.
  - match goal with |- context [if ?c then _ else _] => destruct c end;
      simpl; repeat split; auto; done.
Qed.

(** X19. [handleProcess] sends at most one request.  If it sends none, it leaves
    an error message and touches neither the results nor the spinner; if it
    sends one, it ends with the spinner off and with either results and no
    error, or an error message and no results. *)
Theorem handleProcess_settles (post : Request -> Settled) (st : App.State) :
  let st' := snd (handleProcess post st) in
  (fst (handleProcess post st) = []
   /\ App.error st' <> []
   /\ App.results st' = App.results st
   /\ App.loading st' = App.loading st)
  \/ (exists request,
        fst (handleProcess post st) = [request]
        /\ App.loading st' = false
        /\ ((exists d, App.results st' = Some d /\ App.error st' = [])
            \/ (App.results st' = None /\ App.error st' <> []))).
Proof.
  assert (Hsubmit : forall request,
    let st' := snd (submit post request st) in
    exists r, fst (submit post request st) = [r]
      /\ App.loading st' = false
      /\ ((exists d, App.results st' = Some d /\ App.error st' = [])
          \/ (App.results st' = None /\ App.error st' <> []))).
  { intros request. unfold submit. cbv zeta. exists request. cbn [fst snd].
    destruct (post request) as [response|err].
    - unfold succeeded. destruct (Axios.data response) as [[e|n o s]|]; simpl;
        repeat split; eauto; right; done.
    - simpl. repeat split; auto. right. split; [done|]. apply processError_nonempty. }
  unfold handleProcess. cbv zeta.
  destruct (App.inputMode st), (App.file st) as [f|];
    try (right; apply Hsubmit); try (left; by simpl).
  - destruct (blank (App.textInput st)); [left; by simpl|].
    destruct (200000 <? _); [left; by simpl | right; apply Hsubmit].
  - destruct (blank (App.textInput st)); [left; by simpl|].
    destruct (200000 <? _); [left; by simpl | right; apply Hsubmit].
Qed.

(** What [handleProcess] posts as text is what is typed, when it is not
    blank and has at most 200,000 code units. *)
Lemma handleProcess_posts_text
    (post : Request -> Settled) (st : App.State) (t : JsString) :
  In (PostText t) (fst (handleProcess post st)) ->
  blank t = false /\ N.of_nat (length t) <= 200000
  /\ handleProcess post st = submit post (PostText t) st.
Proof.
  unfold handleProcess.
  destruct (App.inputMode st), (App.file st) as [f|];
    try (by intros [[=]|[]]); try (by intros []).
  - destruct (blank (App.textInput st)) eqn:Hb; [by intros []|].
    destruct (N.ltb_spec 200000 (N.of_nat (length (App.textInput st)))); [by intros []|].
    by intros [[= <-]|[]].
  - destruct (blank (App.textInput st)) eqn:Hb; [by intros []|].
    destruct (N.ltb_spec 200000 (N.of_nat (length (App.textInput st)))); [by intros []|].
    by intros [[= <-]|[]].
Qed.

(** X21. From the text box to the screen: when a text the front end accepts
    reaches the route and the reply reaches the browser, the state ends
    with the notes of [simplifyNotes] and no error, or with no results and
    the message [Server error: ] followed by the error's message, or by a
    default when it has none. *)
Theorem handleProcess_text_end_to_end
    (post : Request -> Settled) (st : App.State) (t : JsString)
    (generateContent : JsString -> Completion JsString) (typeError : JsObject) :
  App.inputMode st = TextMode -> App.textInput st = t ->
  blank t = false -> N.of_nat (length t) <= 200000 ->
  post (PostText t)
  = delivered (snd (processTextRoute generateContent typeError (Some t))) ->
  let st' := snd (handleProcess post st) in
  App.loading st' = false
  /\ match snd (simplifyNotes generateContent typeError t) with
     | Return notes =>
         App.results st'
         = Some (NotesJson notes (N.of_nat (length t)) (N.of_nat (length notes)))
         /\ App.error st' = []
     | Throw err =>
         App.results st' = None
         /\ App.error st'
            = lit "Server error: "
              ++ orElse (default [] (err !! "message"%string))
                   (lit "Internal server error. Please try again.")
     end.
Proof.
  intros Hmode Htext Hb Hl Hpost. cbv zeta.
  unfold handleProcess. rewrite Hmode, Htext, Hb.
  destruct (N.ltb_spec 200000 (N.of_nat (length t))); [lia|].
  unfold submit. cbv zeta. cbn [snd]. rewrite Hpost.
  rewrite processTextRoute_accepted by done.
  destruct (simplifyNotes generateContent typeError t) as [calls [notes|err]];
    cbn [replyWith snd].
  - split; [done|]. by vm_compute (delivered _).
  - split; [done|]. unfold delivered, serverError. cbn [status json].
    change ((200 <=? 500) && (500 <? 300)) with false. cbv iota.
    unfold processError, codeIs, statusIs, dataError. cbn.
    change (strictEq (lit "ERR_BAD_RESPONSE") (lit "ECONNABORTED")) with false.
    cbv iota. split; [done|]. by destruct (err !! "message"%string).
Qed.

Lemma handleProcess_text_end_to_end_witness :
  let st' := snd (handleProcess (StandinServer.post (lit "**Key** idea"))
                    (StandinServer.typing (lit "my notes"))) in
  App.loading st' = false
  /\ App.results st' = Some (NotesJson (lit "Key idea") 8 8)
  /\ App.error st' = [].
Proof.
  destruct (handleProcess_text_end_to_end
              (StandinServer.post (lit "**Key** idea"))
              (StandinServer.typing (lit "my notes")) (lit "my notes")
              (StandinModel.replies (lit "**Key** idea")) StandinModel.typeError)
    as [Hl Hr]; try reflexivity.
  - vm_compute. discriminate.
  - split; [exact Hl|]. exact Hr.
Defined.

(** ** Facts about the endpoints *)

(** The texts the handler of [/api/process-text] passes on to the model. *)
Lemma passed_on (text : option JsString) :
  ~ rejectedText text ->
  exists t, text = Some t /\ blank t = false /\ N.of_nat (length t) <= 200000.
Proof.
  destruct text as [t|]; cbn [rejectedText]; [|tauto]. intros H. exists t.
  split; [done|]. split.
  - destruct (blank t); [tauto | done].
  - destruct (N.le_gt_cases (N.of_nat (length t)) 200000); [done | tauto].
Qed.

Section EndpointFacts.

Variable generateContent : JsString -> Completion JsString.
Variable typeError : JsObject.
Variable Buffer : Type.
Variable toStringUtf8 : Buffer -> Completion JsString.
Variable extname : JsString -> JsString.
Variable toLowerCase : JsString -> JsString.
Variable pdfParse : Buffer -> Completion PdfData.
Variable extractRawText : Buffer -> Completion MammothResult.
Variable byteLength : Buffer -> N.
Variable atLimitAccepted : bool.

Local Abbreviation processTextRoute := (processTextRoute generateContent typeError).
Local Abbreviation processTextEndpoint := (processTextEndpoint generateContent typeError).
Local Abbreviation extractTextFromFile :=
  (extractTextFromFile Buffer toStringUtf8 extname toLowerCase pdfParse extractRawText).
Local Abbreviation uploadRoute :=
  (uploadRoute generateContent typeError Buffer toStringUtf8 extname toLowerCase
     pdfParse extractRawText).
Local Abbreviation overFileSizeLimit := (overFileSizeLimit atLimitAccepted).
Local Abbreviation received := (received Buffer byteLength).
Local Abbreviation uploadEndpoint :=
  (uploadEndpoint generateContent typeError Buffer toStringUtf8 extname toLowerCase
     pdfParse extractRawText byteLength atLimitAccepted).

Lemma processTextEndpoint_refused (request : TextRequest) :
  jsonBodyLimit < bodyLength request ->
  processTextEndpoint request = ([], Refused 413).
Proof.
  intros H. unfold processTextEndpoint.
  by destruct (N.ltb_spec jsonBodyLimit (bodyLength request)); [|lia].
Qed.

Lemma processTextEndpoint_handled (request : TextRequest) :
  bodyLength request <= jsonBodyLimit ->
  processTextEndpoint request = handled (processTextRoute (bodyText request)).
Proof.
  intros H. unfold processTextEndpoint.
  by destruct (N.ltb_spec jsonBodyLimit (bodyLength request)); [lia|].
Qed.

(** A text that fits in a body under the limit is far below the 200,000
    code units of the handler's own check. *)
Lemma wellFormed_short (request : TextRequest) (t : JsString) :
  wellFormed request -> bodyText request = Some t ->
  bodyLength request <= jsonBodyLimit ->
  N.of_nat (length t) <= 102389.
Proof.
  unfold wellFormed, jsonBodyLimit. intros Hw Ht Hl. rewrite Ht in Hw. lia.
Qed.

Lemma processTextEndpoint_accepted (request : TextRequest) (t : JsString) :
  wellFormed request -> bodyText request = Some t ->
  bodyLength request <= jsonBodyLimit -> blank t = false ->
  processTextEndpoint request
  = handled (replyWith (N.of_nat (length t))
               (simplifyNotes generateContent typeError t)).
Proof.
  intros Hw Ht Hl Hb. pose proof (wellFormed_short _ _ Hw Ht Hl).
  rewrite processTextEndpoint_handled, Ht by done.
  rewrite processTextRoute_accepted; [done | done | lia].
Qed.

(** X12. [POST /api/process-text] behind [express.json()]: a body of more than
    102,400 bytes is refused with status 413 before the handler runs;
    below that, a missing or blank text is answered 400 without calling the
    model, and every other text costs exactly one call of the model and is
    answered 200 or 500.  The handler's answer that the text is too long
    is never given to a request whose body holds its text. *)
Theorem processTextEndpoint_validation (request : TextRequest) :
  (102400 < bodyLength request ->
     processTextEndpoint request = ([], Refused 413))
  /\ (bodyLength request <= 102400 ->
      (rejectedText (bodyText request) ->
         exists message,
           processTextEndpoint request = ([], Handled (badRequest message)))
      /\ (~ rejectedText (bodyText request) ->
          exists prompt reply,
            processTextEndpoint request = ([prompt], Handled reply)
            /\ (status reply = 200 \/ status reply = 500)))
  /\ (wellFormed request ->
      (snd (processTextEndpoint request)
       <> Handled (badRequest "Text is too long. Please limit to 200,000 characters."))
      /\ forall reply,
           snd (processTextEndpoint request) = Handled reply ->
           status reply = 400 ->
           reply = badRequest "No text provided"
           \/ reply = badRequest "Text cannot be empty").
Proof.
  split; [apply processTextEndpoint_refused|]. split.
  - intros Hl. rewrite processTextEndpoint_handled by done. split.
    + intros Hr. destruct (processTextRoute_rejected generateContent typeError _ Hr)
        as [m ->]. by exists m.
    + intros Hr. destruct (passed_on _ Hr) as (t & -> & Hb & Ht).
      rewrite processTextRoute_accepted by done.
      destruct (accepted_reply generateContent typeError (N.of_nat (length t)) t Hb)
        as [(response & _ & _ & ->) | (err & ->)];
        eexists _, _; (split; [reflexivity|]); first [by left | by right].
  - intros Hw.
    assert (Hm : forall reply,
      snd (processTextEndpoint request) = Handled reply -> status reply = 400 ->
      reply = badRequest "No text provided" \/ reply = badRequest "Text cannot be empty").
    { intros reply.
      destruct (N.le_gt_cases (bodyLength request) jsonBodyLimit) as [Hl|Hl];
        [|by rewrite processTextEndpoint_refused by lia].
      destruct (bodyText request) as [t|] eqn:Ht.
      - destruct (blank t) eqn:Hb.
        + rewrite processTextEndpoint_handled, Ht by done.
          unfold processTextRoute. rewrite Hb.
          destruct t; cbn [handled snd]; intros [= <-]; auto.
        + rewrite (processTextEndpoint_accepted _ t) by done.
          destruct (accepted_reply generateContent typeError (N.of_nat (length t)) t Hb)
            as [(response & _ & _ & ->) | (err & ->)];
            cbn [handled snd]; intros [= <-]; done.
      - rewrite processTextEndpoint_handled, Ht by done.
        cbn [handled snd processTextRoute]. intros [= <-]. auto. }
    split; [|exact Hm].
    intros H. by destruct (Hm _ H eq_refl) as [H'|H']; vm_compute in H'.
Qed.

(** X13. A text of more than 100,000 code units that [express.json()] lets
    through has at most 102,389 of them; the model only sees its first
    100,000 code units followed by [...], while a successful reply reports
    the full length as [originalLength]. *)
Theorem processTextEndpoint_truncates (request : TextRequest) (text : JsString) :
  wellFormed request -> bodyText request = Some text ->
  bodyLength request <= 102400 ->
  100000 < N.of_nat (length text) -> blank text = false ->
  N.of_nat (length text) <= 102389
  /\ fst (processTextEndpoint request)
     = [buildPrompt (take (N.to_nat 100000) text ++ lit "...")]
  /\ forall reply,
       snd (processTextEndpoint request) = Handled reply -> status reply = 200 ->
       exists notes,
         json reply = NotesJson notes (N.of_nat (length text)) (N.of_nat (length notes)).
Proof.
  intros Hw Ht Hl Hlo Hb. pose proof (wellFormed_short _ _ Hw Ht Hl) as Hs.
  split; [done|].
  rewrite processTextEndpoint_handled, Ht by done.
  destruct (processTextRoute_truncates generateContent typeError text)
    as [Hp Hj]; [done | lia | done |].
  split; [exact Hp|].
  cbn [handled snd]. intros reply [= <-]. exact Hj.
Qed.

(** *** Uploads *)

Lemma Handled_inj (a b : HttpResponse) : Handled a = Handled b -> a = b.
Proof. by intros [= ->]. Qed.

Lemma overFileSizeLimit_below (n : N) :
  n < fileSizeLimit -> overFileSizeLimit n = false.
Proof.
  intros H. unfold overFileSizeLimit.
  destruct (N.ltb_spec fileSizeLimit n); [lia|].
  destruct (N.eqb_spec n fileSizeLimit); [lia | done].
Qed.


(** The three ways through [upload.single('pdf')]. *)
Lemma uploadEndpoint_cases (part : option (Part.File Buffer)) :
  (exists p,
     part = Some p /\ Part.filename p <> []
     /\ (Part.fieldname p <> lit "pdf"
         \/ overFileSizeLimit (byteLength (Part.content p)) = true)
     /\ uploadEndpoint part = ([], Refused 500))
  \/ ((part = None \/ exists p, part = Some p /\ Part.filename p = [])
      /\ uploadEndpoint part = handled (uploadRoute None))
  \/ (exists p,
        part = Some p /\ Part.filename p <> []
        /\ Part.fieldname p = lit "pdf"
        /\ overFileSizeLimit (byteLength (Part.content p)) = false
        /\ uploadEndpoint part = handled (uploadRoute (Some (received p)))).
Proof.
  destruct part as [p|]; [|right; left; auto].
  unfold uploadEndpoint.
  destruct (Part.filename p) as [|c name] eqn:Hn; [right; left; eauto|].
  unfold strictEq. destruct (bool_decide_reflect (Part.fieldname p = lit "pdf")) as [Hf|Hf];
    cbn [negb].
  - destruct (overFileSizeLimit _) eqn:Ho.
    + left. exists p. rewrite Hn. repeat split; auto.
    + right. right. exists p. rewrite Hn.
      repeat split; auto.
  - left. exists p. rewrite Hn. repeat split; auto.
Qed.

(** X15. A PDF that [upload.single('pdf')] lets through (in the field [pdf],
    named, not empty and under the 10 MB limit) and whose reader fails is
    not turned down: the placeholder that reports the failure is what the
    model is asked to summarise, and the answer is 200 or 500. *)
Theorem uploadEndpoint_failed_pdf_is_summarised
    (p : Part.File Buffer) (e : JsObject) :
  Part.fieldname p = lit "pdf" -> Part.filename p <> [] ->
  0 < byteLength (Part.content p) -> byteLength (Part.content p) < 10485760 ->
  Part.contentType p = Some mimePdf
  \/ (~ In (Part.contentType p) (map Some knownMimes)
      /\ toLowerCase (extname (Part.filename p)) = lit ".pdf") ->
  pdfParse (Part.content p) = Throw e ->
  exists reply,
    uploadEndpoint (Some p) = ([buildPrompt pdfFailed], Handled reply)
    /\ (status reply = 200 \/ status reply = 500).
Proof.
  intros Hf Hn Hlo Hhi Hpdf Hfail.
  destruct (uploadEndpoint_cases (Some p))
    as [(q & [= <-] & _ & [H|H] & _) | [([[=] | (q & [= <-] & H)] & _)
        | (q & [= <-] & _ & _ & _ & ->)]]; try done.
  - by rewrite overFileSizeLimit_below in H.
  - destruct (uploadRoute_failed_pdf generateContent typeError Buffer toStringUtf8
                extname toLowerCase pdfParse extractRawText (received p) e)
      as (reply & -> & Hs); try done.
    + cbn [Multer.size received]. lia.
    + by exists reply.
Qed.

(** X16. The reply "No readable text found in the uploaded file" is only given
    for a file whose text was decoded from the bytes as they are and is
    blank: never for a file that went to the PDF or to the Word reader,
    that is, one declared as PDF or Word, or one of no known type whose
    extension is [.pdf], [.docx] or [.doc]. *)
Theorem uploadEndpoint_no_readable_text (part : option (Part.File Buffer)) :
  snd (uploadEndpoint part) = Handled noReadableText ->
  exists p t,
    part = Some p
    /\ toStringUtf8 (Part.content p) = Return t /\ blank t = true
    /\ ~ In (Part.contentType p) (map Some [mimePdf; mimeDocx; mimeDoc])
    /\ (~ In (Part.contentType p) (map Some knownMimes) ->
        ~ In (toLowerCase (extname (Part.filename p))) (lit ".pdf" :: wordExts)).
Proof.
  destruct (uploadEndpoint_cases part)
    as [(q & _ & _ & _ & ->) | [(_ & ->) | (q & -> & _ & _ & _ & ->)]];
    cbn [handled snd]; try done.
  intros H. apply Handled_inj in H.
  apply uploadRoute_no_readable_text in H as (f & t & [= <-] & Ht & Hb & Hp & Hw).
  by exists q, t.
Qed.


End EndpointFacts.

(** X20. What becomes of a text the front end posts, in a body that holds it:
    [POST /api/process-text] never answers it with 400.  A body of at most
    102,400 bytes costs one call of the model and is answered 200 or 500;
    a larger one, as for every text of more than 102,389 code units, is
    refused with status 413 by [express.json()], and the front end then
    shows its default message and no results. *)
Theorem handleProcess_text_meets_body_limit
    (post : Request -> Settled) (st : App.State) (t : JsString)
    (generateContent : JsString -> Completion JsString) (typeError : JsObject)
    (n : N) :
  In (PostText t) (fst (handleProcess post st)) ->
  N.of_nat (length t) + 11 <= n ->
  let outcome :=
    processTextEndpoint generateContent typeError
      {| bodyLength := n; bodyText := Some t |} in
  (forall reply, snd outcome = Handled reply -> status reply = 200 \/ status reply = 500)
  /\ (n <= 102400 -> exists prompt reply, outcome = ([prompt], Handled reply))
  /\ (102400 < n ->
      outcome = ([], Refused 413)
      /\ (post (PostText t) = settled (snd outcome) ->
          App.results (snd (handleProcess post st)) = None
          /\ App.error (snd (handleProcess post st))
             = lit "Failed to process content. Please try again."
          /\ App.loading (snd (handleProcess post st)) = false))
  /\ (102389 < N.of_nat (length t) -> outcome = ([], Refused 413)).
Proof.
  intros Hin Hn outcome. subst outcome.
  destruct (handleProcess_posts_text _ _ _ Hin) as (Hb & Hl & Heq).
  set (request := {| bodyLength := n; bodyText := Some t |}).
  assert (Hw : wellFormed request) by exact Hn.
  assert (Hok : n <= jsonBodyLimit ->
    exists prompt reply,
      processTextEndpoint generateContent typeError request = ([prompt], Handled reply)
      /\ (status reply = 200 \/ status reply = 500)).
  { intros Hle.
    rewrite (processTextEndpoint_accepted generateContent typeError request t)
      by done.
    destruct (accepted_reply generateContent typeError (N.of_nat (length t)) t Hb)
      as [(response & _ & _ & ->) | (err & ->)];
      eexists _, _; (split; [reflexivity|]); first [by left | by right]. }
  split; [|split; [|split]].
  - intros reply. destruct (N.le_gt_cases n jsonBodyLimit) as [Hle|Hgt].
    + destruct (Hok Hle) as (prompt & r & -> & Hs). by intros [= <-].
    + by rewrite processTextEndpoint_refused.
  - intros Hle. destruct (Hok Hle) as (prompt & r & -> & _). eauto.
  - intros Hgt. rewrite processTextEndpoint_refused by done.
    split; [done|]. cbn [snd]. intros Hpost.
    rewrite Heq. unfold submit. cbn [snd]. rewrite Hpost. done.
  - intros Hlong. apply processTextEndpoint_refused. unfold jsonBodyLimit.
    cbn [bodyLength request]. lia.
Qed.

(** *** The theorems at concrete requests *)

Lemma processTextEndpoint_validation_witness :
  processTextEndpoint (StandinModel.replies (lit "ok")) StandinModel.typeError
    {| bodyLength := 150012;
       bodyText := Some (0x78 :: repeat 0x61 (N.to_nat 150000)) |}
  = ([], Refused 413).
Proof.
  destruct (processTextEndpoint_validation
              (StandinModel.replies (lit "ok")) StandinModel.typeError
              {| bodyLength := 150012;
                 bodyText := Some (0x78 :: repeat 0x61 (N.to_nat 150000)) |})
    as [H _].
  apply H. reflexivity.
Defined.

Lemma processTextEndpoint_truncates_witness :
  let text := 0x78 :: repeat 0x61 (N.to_nat 100000) in
  fst (processTextEndpoint (StandinModel.replies (lit "ok")) StandinModel.typeError
         {| bodyLength := 100012; bodyText := Some text |})
  = [buildPrompt (take (N.to_nat 100000) text ++ lit "...")].
Proof.
  intros text.
  assert (Hlen : length text = S (N.to_nat 100000)).
  { unfold text. cbn [length]. by rewrite repeat_length. }
  destruct (processTextEndpoint_truncates
              (StandinModel.replies (lit "ok")) StandinModel.typeError
              {| bodyLength := 100012; bodyText := Some text |} text)
    as (_ & H & _).
  - unfold wellFormed. cbn [bodyText bodyLength]. rewrite Hlen. lia.
  - reflexivity.
  - cbn [bodyLength]. unfold jsonBodyLimit. lia.
  - rewrite Hlen. lia.
  - apply (blank_false _ 0x78); [left; reflexivity | reflexivity].
  - exact H.
Defined.

Lemma uploadEndpoint_failed_pdf_is_summarised_witness :
  exists reply,
    StandinUpload.uploadEndpoint Standin.pdfCorrupt
      (Some {| Part.fieldname := lit "pdf"; Part.filename := lit "Scan.PDF";
               Part.contentType := Some (lit "application/octet-stream");
               Part.content := lit "%PDF-1.4 garbage" |})
    = ([buildPrompt pdfFailed], Handled reply)
    /\ (status reply = 200 \/ status reply = 500).
Proof.
  apply (uploadEndpoint_failed_pdf_is_summarised
           (StandinModel.replies (lit "ok")) StandinModel.typeError
           Standin.Buffer Standin.toStringUtf8 Standin.extname Standin.toLowerCase
           Standin.pdfCorrupt Standin.wordCorrupt
           StandinUpload.byteLength StandinUpload.atLimitAccepted
           {| Part.fieldname := lit "pdf"; Part.filename := lit "Scan.PDF";
              Part.contentType := Some (lit "application/octet-stream");
              Part.content := lit "%PDF-1.4 garbage" |}
           (newError (lit "Invalid PDF structure"))).
  - reflexivity.
  - discriminate.
  - reflexivity.
  - reflexivity.
  - right. split; [not_listed | vm_compute; reflexivity].
  - reflexivity.
Defined.

Lemma uploadEndpoint_no_readable_text_witness :
  exists p t,
    Some {| Part.fieldname := lit "pdf"; Part.filename := lit "empty.txt";
            Part.contentType := Some mimeText; Part.content := lit "   " |}
    = Some p
    /\ Standin.toStringUtf8 (Part.content p) = Return t /\ blank t = true
    /\ ~ In (Part.contentType p) (map Some [mimePdf; mimeDocx; mimeDoc])
    /\ (~ In (Part.contentType p) (map Some knownMimes) ->
        ~ In (Standin.toLowerCase (Standin.extname (Part.filename p)))
            (lit ".pdf" :: wordExts)).
Proof.
  apply (uploadEndpoint_no_readable_text
           (StandinModel.replies (lit "ok")) StandinModel.typeError
           Standin.Buffer Standin.toStringUtf8 Standin.extname Standin.toLowerCase
           Standin.pdfCorrupt Standin.wordCorrupt
           StandinUpload.byteLength StandinUpload.atLimitAccepted).
  vm_compute. reflexivity.
Defined.


Lemma handleProcess_text_meets_body_limit_witness :
  let text := 0x78 :: repeat 0x61 (N.to_nat 150000) in
  let post := fun _ : Request => settled (Refused 413) in
  let outcome :=
    processTextEndpoint (StandinModel.replies (lit "ok")) StandinModel.typeError
      {| bodyLength := 150012; bodyText := Some text |} in
  outcome = ([], Refused 413)
  /\ App.error (snd (handleProcess post (StandinServer.typing text)))
     = lit "Failed to process content. Please try again.".
Proof.
  intros text post outcome.
  assert (Hlen : length text = S (N.to_nat 150000)).
  { unfold text. cbn [length]. by rewrite repeat_length. }
  assert (Hb : blank text = false).
  { apply (blank_false _ 0x78); [left; reflexivity | reflexivity]. }
  destruct (handleProcess_text_meets_body_limit
              post (StandinServer.typing text) text
              (StandinModel.replies (lit "ok")) StandinModel.typeError 150012)
    as (_ & _ & H & _).
  - unfold handleProcess, StandinServer.typing.
    cbn [App.inputMode App.file App.textInput]. rewrite Hb.
    destruct (N.ltb_spec 200000 (N.of_nat (length text))); [lia|].
    left. reflexivity.
  - rewrite Hlen. lia.
  - destruct H as [Ho Hs]; [reflexivity|].
    split; [exact Ho|].
    destruct Hs as (_ & He & _); [|exact He].
    fold outcome. rewrite Ho. reflexivity.
Defined.
